(** * video-journal-task: the video library store and the create / edit
      workflows, embedded from the TypeScript sources.

    Layout (one module per source file):
    - [types]               src/types            (VideoItem, CropParams)
    - [JS]                  the run-time the code relies on: exceptions,
                            [Date.now()], the expo file system and FFmpegKit
    - [videoStore]          src/store/videoStore.ts
    - [videoService]        src/services/videoService.ts
    - [useVideoOperations]  src/hooks/useVideoOperations.ts
    - [VideoCreateScreen]   src/screens/VideoCreateScreen.tsx (form handlers)

    JavaScript numbers are kept abstract (class [JSNumber]): the code only
    subtracts them and prints them, so every statement below holds for any
    carrier with these two operations.  The integers are one instance. *)

From Stdlib Require Import String List ZArith Lia Bool.
From Stdlib Require Import DecimalString.
From Stdlib Require Import Ascii.
From Stdlib Require QArith Qround.
Import ListNotations.
Open Scope string_scope.

Set Implicit Arguments.

(** ** JavaScript numbers *)

Class JSNumber (num : Type) := {
  num_sub : num -> num -> num;          (* [a - b] *)
  num_toString : num -> string          (* [`${a}`] and [a.toString()] *)
}.

(** Integers, printed in decimal. *)
#[global] Instance JSNumber_Z : JSNumber Z := {
  num_sub := Z.sub;
  num_toString := fun z => NilZero.string_of_int (Z.to_int z)
}.

(** ** src/types *)

Module types.

Record VideoItem (num : Type) := mkVideoItem {
  id : string;
  uri : string;
  name : string;
  description : string;
  duration : num;
  createdAt : num;
  thumbnailUri : option string        (* [thumbnailUri?: string] *)
}.

Record CropParams (num : Type) := mkCropParams {
  videoUri : string;
  startTime : num;
  endTime : num;
  outputFileName : string
}.

End types.
Import types.

(** ** Run-time model *)

Module JS.

(** [new Error(message)] *)
Inductive JSError := Error (message : string).

Definition message (e : JSError) : string :=
  match e with Error m => m end.

(** Calls that leave the program: the expo file system and FFmpegKit. *)
Inductive Event :=
| GetInfoAsync (path : string)
| MakeDirectoryAsync (path : string)
| FFmpegExecute (command : string).

(** What an awaited call does: it resolves to a value or rejects. *)
Inductive Outcome (A : Type) :=
| Resolves (a : A)
| Rejects (e : JSError).
Arguments Rejects {A} e.

(** The surroundings of one run.  Every answer may depend on the calls made
    so far. *)
Record Env (num : Type) := mkEnv {
  now : nat -> num;                                   (* n-th [Date.now()] *)
  documentDirectory : string;                         (* FileSystem.documentDirectory *)
  getInfo_exists : list Event -> string -> Outcome bool;
  makeDirectory : list Event -> string -> Outcome unit;
  ffmpeg_isSuccess : list Event -> string -> Outcome bool
    (* FFmpegKit.execute, then ReturnCode.isSuccess(session.getReturnCode()) *)
}.

(** State of one [useMutation] object. *)
Inductive MutationStatus := Idle | Pending | Success | Failed.

Record Mutation (num : Type) := mkMutation {
  status : MutationStatus;
  data : option (VideoItem num);
  mutationError : option JSError
}.

Definition idleMutation {num} : Mutation num :=
  {| status := Idle; data := None; mutationError := None |}.

Definition pendingMutation {num} : Mutation num :=
  {| status := Pending; data := None; mutationError := None |}.

(** Everything the modelled code reads or writes. *)
Record World (num : Type) := mkWorld {
  videos : list (VideoItem num);        (* the zustand store: [state.videos] *)
  ticks : nat;                          (* readings of [Date.now()] so far *)
  trace : list Event;                   (* external calls, oldest first *)
  isLoading : bool;                     (* useState(false) *)
  error : option string;                (* useState<string | null>(null) *)
  cropVideoMutation : Mutation num;
  editVideoMutation : Mutation num;
  invalidations : nat;                  (* queryClient.invalidateQueries calls *)
  navigated : list string               (* navigation.navigate targets, oldest first *)
}.

Definition initialWorld {num} : World num :=
  {| videos := []; ticks := 0; trace := []; isLoading := false; error := None;
     cropVideoMutation := idleMutation; editVideoMutation := idleMutation;
     invalidations := 0; navigated := [] |}.

(** How a block ends: with a value, or with a thrown error. *)
Inductive Completion (A : Type) :=
| Normal (a : A)
| Throw (e : JSError).
Arguments Throw {A} e.

Section Monad.
Context {num : Type}.

Definition M (A : Type) : Type := World num -> Completion A * World num.

Definition ret {A} (a : A) : M A := fun w => (Normal a, w).

Definition bind {A B} (m : M A) (k : A -> M B) : M B :=
  fun w => match m w with
           | (Normal a, w') => k a w'
           | (Throw e, w') => (Throw e, w')
           end.

Definition throw {A} (e : JSError) : M A := fun w => (Throw e, w).

(** [try { m } catch (err) { h err }] *)
Definition try_catch {A} (m : M A) (h : JSError -> M A) : M A :=
  fun w => match m w with
           | (Normal a, w') => (Normal a, w')
           | (Throw e, w') => h e w'
           end.

(** [try { m } finally { f }] *)
Definition try_finally {A} (m : M A) (f : M unit) : M A :=
  fun w => match m w with
           | (r, w') => match f w' with
                        | (Normal _, w'') => (r, w'')
                        | (Throw e, w'') => (Throw e, w'')
                        end
           end.

Definition exec {A} (m : M A) (w : World num) : World num := snd (m w).
Definition eval {A} (m : M A) (w : World num) : Completion A := fst (m w).

(** Field updates. *)
Definition with_videos (v : list (VideoItem num)) (w : World num) : World num :=
  {| videos := v; ticks := ticks w; trace := trace w; isLoading := isLoading w;
     error := error w; cropVideoMutation := cropVideoMutation w;
     editVideoMutation := editVideoMutation w; invalidations := invalidations w;
     navigated := navigated w |}.

Definition with_ticks (n : nat) (w : World num) : World num :=
  {| videos := videos w; ticks := n; trace := trace w; isLoading := isLoading w;
     error := error w; cropVideoMutation := cropVideoMutation w;
     editVideoMutation := editVideoMutation w; invalidations := invalidations w;
     navigated := navigated w |}.

Definition with_trace (t : list Event) (w : World num) : World num :=
  {| videos := videos w; ticks := ticks w; trace := t; isLoading := isLoading w;
     error := error w; cropVideoMutation := cropVideoMutation w;
     editVideoMutation := editVideoMutation w; invalidations := invalidations w;
     navigated := navigated w |}.

Definition with_isLoading (b : bool) (w : World num) : World num :=
  {| videos := videos w; ticks := ticks w; trace := trace w; isLoading := b;
     error := error w; cropVideoMutation := cropVideoMutation w;
     editVideoMutation := editVideoMutation w; invalidations := invalidations w;
     navigated := navigated w |}.

Definition with_error (e : option string) (w : World num) : World num :=
  {| videos := videos w; ticks := ticks w; trace := trace w; isLoading := isLoading w;
     error := e; cropVideoMutation := cropVideoMutation w;
     editVideoMutation := editVideoMutation w; invalidations := invalidations w;
     navigated := navigated w |}.

Definition with_cropVideoMutation (m : Mutation num) (w : World num) : World num :=
  {| videos := videos w; ticks := ticks w; trace := trace w; isLoading := isLoading w;
     error := error w; cropVideoMutation := m;
     editVideoMutation := editVideoMutation w; invalidations := invalidations w;
     navigated := navigated w |}.

Definition with_editVideoMutation (m : Mutation num) (w : World num) : World num :=
  {| videos := videos w; ticks := ticks w; trace := trace w; isLoading := isLoading w;
     error := error w; cropVideoMutation := cropVideoMutation w;
     editVideoMutation := m; invalidations := invalidations w;
     navigated := navigated w |}.

Definition with_invalidations (n : nat) (w : World num) : World num :=
  {| videos := videos w; ticks := ticks w; trace := trace w; isLoading := isLoading w;
     error := error w; cropVideoMutation := cropVideoMutation w;
     editVideoMutation := editVideoMutation w; invalidations := n;
     navigated := navigated w |}.

Definition with_navigated (l : list string) (w : World num) : World num :=
  {| videos := videos w; ticks := ticks w; trace := trace w; isLoading := isLoading w;
     error := error w; cropVideoMutation := cropVideoMutation w;
     editVideoMutation := editVideoMutation w; invalidations := invalidations w;
     navigated := l |}.

Variable env : Env num.

(** [Date.now()] *)
Definition Date_now : M num :=
  fun w => (Normal (now env (ticks w)), with_ticks (S (ticks w)) w).

(** An awaited external call: it is recorded, and its outcome is the
    environment's answer to the calls made before it. *)
Definition await {A} (ev : Event) (answer : list Event -> Outcome A) : M A :=
  fun w => match answer (trace w) with
           | Resolves a => (Normal a, with_trace (trace w ++ [ev]) w)
           | Rejects e => (Throw e, with_trace (trace w ++ [ev]) w)
           end.

Definition FileSystem_getInfoAsync_exists (path : string) : M bool :=
  await (GetInfoAsync path) (fun tr => getInfo_exists env tr path).

Definition FileSystem_makeDirectoryAsync (path : string) : M unit :=
  await (MakeDirectoryAsync path) (fun tr => makeDirectory env tr path).

Definition FFmpegKit_execute_isSuccess (command : string) : M bool :=
  await (FFmpegExecute command) (fun tr => ffmpeg_isSuccess env tr command).

End Monad.

End JS.
Import JS.

Declare Scope js_scope.
Delimit Scope js_scope with js.
Notation "x <- m ;; k" := (bind m (fun x => k))
  (at level 61, m at next level, right associativity) : js_scope.
Notation "m ;; k" := (bind m (fun _ => k))
  (at level 61, right associativity) : js_scope.
Open Scope js_scope.

(** JavaScript's [a || b] on values that are a string, [null] or [undefined]:
    the empty string is falsy too. *)
Definition js_or (a b : option string) : option string :=
  match a with
  | None => b
  | Some EmptyString => b
  | Some _ => a
  end.

(** ** src/store/videoStore.ts *)

Module videoStore.
Section Store.
Context {num : Type}.

(** zustand's [set((state) => ({ videos: f(state.videos) }))] *)
Definition set (f : list (VideoItem num) -> list (VideoItem num)) : M unit :=
  fun w => (Normal tt, with_videos (f (videos w)) w).

(** zustand's [get().videos] *)
Definition get_videos : M (list (VideoItem num)) :=
  fun w => (Normal (videos w), w).

Definition addVideo (video : VideoItem num) : M unit :=
  set (fun state_videos => video :: state_videos).

Definition updateVideo (updatedVideo : VideoItem num) : M unit :=
  set (fun state_videos =>
         map (fun video =>
                if (id video =? id updatedVideo)%string then updatedVideo else video)
             state_videos).

Definition removeVideo (i : string) : M unit :=
  set (fun state_videos =>
         filter (fun video => negb (id video =? i)%string) state_videos).

Definition getVideoById (i : string) : M (option (VideoItem num)) :=
  state_videos <- get_videos ;;
  ret (find (fun video => (id video =? i)%string) state_videos).

(** [rs.forEach(addVideo)]: one [add] call per record, in list order. *)
Fixpoint addVideo_each (rs : list (VideoItem num)) : M unit :=
  match rs with
  | [] => ret tt
  | r :: rs' => addVideo r ;; addVideo_each rs'
  end.

(** [video.id === i] *)
Definition same_id (i : string) : VideoItem num -> bool :=
  fun video => (id video =? i)%string.

(** How many records of a collection carry the id [i]. *)
Definition count_id (i : string) (l : list (VideoItem num)) : nat :=
  length (filter (same_id i) l).

End Store.
End videoStore.

(** ** src/services/videoService.ts *)

Module videoService.
Section Service.
Context {num : Type} {N : JSNumber num}.
Variable env : Env num.

Definition cropVideo (params : CropParams num) : M string :=
  let outputDir := documentDirectory env ++ "videos/" in
  let outputPath := outputDir ++ outputFileName params ++ ".mp4" in
  try_catch
    (dirInfo_exists <- FileSystem_getInfoAsync_exists env outputDir ;;
     (if negb dirInfo_exists
      then FileSystem_makeDirectoryAsync env outputDir
      else ret tt) ;;
     let command :=
       "-ss " ++ num_toString (startTime params) ++
       " -t " ++ num_toString (num_sub (endTime params) (startTime params)) ++
       " -i " ++ videoUri params ++
       " -c:v mpeg4 -c:a aac -b:v 2M -b:a 128k -strict experimental " ++
       outputPath in
     isSuccess <- FFmpegKit_execute_isSuccess env command ;;
     if isSuccess : bool
     then ret outputPath
     else throw (Error "Video trimming process failed"))
    (fun error => throw error).

Definition generateThumbnail (videoUri : string) : M string :=
  let thumbnailDir := documentDirectory env ++ "thumbnails/" in
  t <- Date_now env ;;
  let thumbnailPath := thumbnailDir ++ num_toString t ++ ".jpg" in
  try_catch
    (dirInfo_exists <- FileSystem_getInfoAsync_exists env thumbnailDir ;;
     (if negb dirInfo_exists
      then FileSystem_makeDirectoryAsync env thumbnailDir
      else ret tt) ;;
     let command := "-i " ++ videoUri ++ " -ss 0 -vframes 1 " ++ thumbnailPath in
     isSuccess <- FFmpegKit_execute_isSuccess env command ;;
     if isSuccess : bool
     then ret thumbnailPath
     else throw (Error "Thumbnail creation process failed"))
    (fun error => throw error).

End Service.
End videoService.

(** ** src/hooks/useVideoOperations.ts *)

Module useVideoOperations.
Section Hook.
Context {num : Type} {N : JSNumber num}.
Variable env : Env num.

Definition setIsLoading (b : bool) : M unit :=
  fun w : World num => (Normal tt, with_isLoading b w).

Definition setError (e : option string) : M unit :=
  fun w : World num => (Normal tt, with_error e w).

(** [queryClient.invalidateQueries({ queryKey: ['videos'] })] *)
Definition invalidateQueries : M unit :=
  fun w : World num => (Normal tt, with_invalidations (S (invalidations w)) w).

(** [useMutation({ mutationFn, onSuccess }).mutate(variables)], run to its
    end: the mutation is pending while [mutationFn] runs, and ends in
    success (after [onSuccess]) or in error; nothing is thrown to the
    caller of [mutate]. *)
Definition mutate (setMutation : Mutation num -> World num -> World num)
           (mutationFn : M (VideoItem num)) (onSuccess : M unit) : M unit :=
  fun w =>
    let w0 := setMutation pendingMutation w in
    match mutationFn w0 with
    | (Normal v, w1) =>
        match onSuccess w1 with
        | (Normal _, w2) =>
            (Normal tt,
             setMutation {| status := Success; data := Some v;
                            mutationError := None |} w2)
        | (Throw e, w2) =>
            (Normal tt,
             setMutation {| status := Failed; data := None;
                            mutationError := Some e |} w2)
        end
    | (Throw e, w1) =>
        (Normal tt,
         setMutation {| status := Failed; data := None;
                        mutationError := Some e |} w1)
    end.

Definition cropVideoMutation_mutationFn
           (videoUri : string) (startTime endTime : num)
           (name description : string) : M (VideoItem num) :=
  setIsLoading true ;;
  setError None ;;
  try_finally
    (try_catch
       (t0 <- Date_now env ;;
        let outputFileName := "video_" ++ num_toString t0 in
        croppedVideoUri <-
          videoService.cropVideo env
            (mkCropParams videoUri startTime endTime outputFileName) ;;
        thumbnailUri <- videoService.generateThumbnail env croppedVideoUri ;;
        t1 <- Date_now env ;;
        t2 <- Date_now env ;;
        let newVideo :=
          mkVideoItem (num_toString t1) croppedVideoUri name description
                      (num_sub endTime startTime) t2 (Some thumbnailUri) in
        videoStore.addVideo newVideo ;;
        ret newVideo)
       (fun err =>
          setError (Some "An error occurred during video processing") ;;
          throw err))
    (setIsLoading false).

Definition editVideoMutation_mutationFn
           (videoId videoUri : string) (startTime endTime : num)
           (name description : string) : M (VideoItem num) :=
  setIsLoading true ;;
  setError None ;;
  try_finally
    (try_catch
       (existingVideo <- videoStore.getVideoById videoId ;;
        match existingVideo with
        | None => throw (Error "Video not found")
        | Some existingVideo =>
            t0 <- Date_now env ;;
            let outputFileName := "video_edit_" ++ num_toString t0 in
            croppedVideoUri <-
              videoService.cropVideo env
                (mkCropParams videoUri startTime endTime outputFileName) ;;
            thumbnailUri <-
              videoService.generateThumbnail env croppedVideoUri ;;
            let updatedVideo :=
              mkVideoItem (id existingVideo) croppedVideoUri name description
                          (num_sub endTime startTime)
                          (createdAt existingVideo) (Some thumbnailUri) in
            videoStore.updateVideo updatedVideo ;;
            ret updatedVideo
        end)
       (fun err =>
          setError (Some "An error occurred during video editing") ;;
          throw err))
    (setIsLoading false).

(** [cropVideo: cropVideoMutation.mutate] *)
Definition cropVideo (videoUri : string) (startTime endTime : num)
           (name description : string) : M unit :=
  mutate (@with_cropVideoMutation num)
         (cropVideoMutation_mutationFn videoUri startTime endTime name description)
         invalidateQueries.

(** [editVideo: editVideoMutation.mutate] *)
Definition editVideo (videoId videoUri : string) (startTime endTime : num)
           (name description : string) : M unit :=
  mutate (@with_editVideoMutation num)
         (editVideoMutation_mutationFn videoId videoUri startTime endTime
                                       name description)
         invalidateQueries.

Definition isPending (m : Mutation num) : bool :=
  match status m with Pending => true | _ => false end.

(** The [isLoading] and [error] values the hook returns. *)
Definition hook_isLoading (w : World num) : bool :=
  isLoading w || isPending (cropVideoMutation w) || isPending (editVideoMutation w).

Definition hook_error (w : World num) : option string :=
  js_or (js_or (error w)
               (option_map message (mutationError (cropVideoMutation w))))
        (option_map message (mutationError (editVideoMutation w))).

(** What [ImagePicker.launchImageLibraryAsync] resolves to: [canceled], and
    the uri of each of [assets] ([None] when [assets] is [null]). *)
Record PickerResult := mkPickerResult {
  canceled : bool;
  assets : option (list string)
}.

(** An awaited call of the image picker, given what it settles to. *)
Definition awaited {A} (answer : Outcome A) : M A :=
  fun w : World num =>
    match answer with
    | Resolves a => (Normal a, w)
    | Rejects e => (Throw e, w)
    end.

(** [pickVideo], given what [requestMediaLibraryPermissionsAsync] settles to
    ([granted]) and what [launchImageLibraryAsync] would settle to. *)
Definition pickVideo (permission : Outcome bool) (launch : Outcome PickerResult)
  : M (option string) :=
  try_catch
    (granted <- awaited permission ;;
     if negb granted
     then setError (Some "Permission to access videos was denied") ;;
          ret None
     else
       result <- awaited launch ;;
       match canceled result, assets result with
       | false, Some (first_uri :: _) => ret (Some first_uri)
       | _, _ => ret None
       end)
    (fun err =>
       setError (Some "An error occurred while selecting video") ;;
       ret None).

End Hook.
End useVideoOperations.

(** ** src/screens/VideoCreateScreen.tsx: the form and its handlers *)

Module VideoCreateScreen.

Inductive Step := select | trim | metadata.

(** [formErrors: { name?: string; description?: string }] *)
Record FormErrors := mkFormErrors {
  name_error : option string;
  description_error : option string
}.

(** The component's [useState] cells that the handlers read. *)
Record State (num : Type) := mkState {
  step : Step;
  selectedVideoUri : option string;     (* [string | null] *)
  startTime : num;
  endTime : num;
  name : string;
  description : string;
  formErrors : FormErrors
}.

(** [videoFormSchema.parse({ name, description })]: the issues zod raises,
    as (path, message), in schema order; none when the object is accepted. *)
Definition videoFormSchema_issues (name description : string)
  : list (string * string) :=
  (if (String.length name <? 1)%nat then [("name", "Title is required")] else []) ++
  (if (50 <? String.length name)%nat
   then [("name", "Title must be less than 50 characters")] else []) ++
  (if (500 <? String.length description)%nat
   then [("description", "Description must be less than 500 characters")]
   else []).

(** [errors[path] = err.message] *)
Definition assign_error (errors : FormErrors) (issue : string * string)
  : FormErrors :=
  if (fst issue =? "name")%string
  then {| name_error := Some (snd issue);
          description_error := description_error errors |}
  else if (fst issue =? "description")%string
  then {| name_error := name_error errors;
          description_error := Some (snd issue) |}
  else errors.

Section Screen.
Context {num : Type} {N : JSNumber num}.
Variable env : Env num.

Definition setFormErrors (e : FormErrors) (s : State num) : State num :=
  {| step := step s; selectedVideoUri := selectedVideoUri s;
     startTime := startTime s; endTime := endTime s; name := name s;
     description := description s; formErrors := e |}.

Definition validateForm (s : State num) : bool * State num :=
  match videoFormSchema_issues (name s) (description s) with
  | [] => (true, setFormErrors (mkFormErrors None None) s)
  | issues =>
      (false,
       setFormErrors (fold_left assign_error issues (mkFormErrors None None)) s)
  end.

(** [navigation.navigate(target)] *)
Definition navigate (target : string) : M unit :=
  fun w : World num => (Normal tt, with_navigated (navigated w ++ [target]) w).

Definition handleCropVideo (s : State num) : M unit :=
  match selectedVideoUri s with
  | None => ret tt
  | Some EmptyString => ret tt            (* [!selectedVideoUri] *)
  | Some videoUri =>
      useVideoOperations.cropVideo env videoUri (startTime s) (endTime s)
                                   (name s) (description s) ;;
      navigate "Home"
  end.

Definition handleSaveVideo (s : State num) : M (State num) :=
  let (valid, s') := validateForm s in
  if negb valid
  then ret s'
  else handleCropVideo s ;; ret s'.

(** The "Save Video" button: [onPress={handleCropVideo}]. *)
Definition SaveVideo_onPress (s : State num) : M unit := handleCropVideo s.

End Screen.
End VideoCreateScreen.

(** ** src/screens/VideoEditScreen.tsx: the form and its handler *)

Module VideoEditScreen.

(** The route parameter and the [useState] cells that the handler reads. *)
Record State (num : Type) := mkState {
  videoId : string;                     (* [route.params.videoId] *)
  startTime : num;
  endTime : num;
  name : string;
  description : string;
  formErrors : VideoCreateScreen.FormErrors
}.

Section Screen.
Context {num : Type} {N : JSNumber num}.
Variable env : Env num.

Definition setFormErrors (e : VideoCreateScreen.FormErrors) (s : State num)
  : State num :=
  {| videoId := videoId s; startTime := startTime s; endTime := endTime s;
     name := name s; description := description s; formErrors := e |}.

(** The file declares the same [videoFormSchema] as the create screen. *)
Definition validateForm (s : State num) : bool * State num :=
  match VideoCreateScreen.videoFormSchema_issues (name s) (description s) with
  | [] => (true, setFormErrors (VideoCreateScreen.mkFormErrors None None) s)
  | issues =>
      (false,
       setFormErrors
         (fold_left VideoCreateScreen.assign_error issues
                    (VideoCreateScreen.mkFormErrors None None)) s)
  end.

(** [videoData] is [getVideoById(videoId)], read from the store the handler
    runs on. *)
Definition handleUpdateVideo (s : State num) : M (State num) :=
  let (valid, s') := validateForm s in
  if negb valid
  then ret s'
  else
    videoData <- videoStore.getVideoById (videoId s) ;;
    match videoData with
    | None => ret s'
    | Some videoData =>
        useVideoOperations.editVideo env (videoId s) (uri videoData)
                                     (startTime s) (endTime s)
                                     (name s) (description s) ;;
        VideoCreateScreen.navigate "Home" ;;
        ret s'
    end.

End Screen.
End VideoEditScreen.

(** ** The trimmer component (VideoTrimmer): the two slider handlers

    The trim range is kept in whole seconds, as the handlers store it
    ([Math.floor] of the slider value); the slider value is any rational. *)

Module VideoTrimmer.

Record State := mkState {
  startTime : Z;
  endTime : Z;
  isPlaying : bool
}.

(** What a handler does besides setting state. *)
Inductive Effect :=
| Alert (title message : string)
| SetPositionAsync (positionMillis : Z).

Definition setStartTime (t : Z) (s : State) : State :=
  {| startTime := t; endTime := endTime s; isPlaying := isPlaying s |}.

Definition setEndTime (t : Z) (s : State) : State :=
  {| startTime := startTime s; endTime := t; isPlaying := isPlaying s |}.

(** [hasVideoRef] is [videoRef.current] being set. *)
Definition handleStartTimeChange (hasVideoRef : bool) (value : QArith_base.Q)
           (s : State) : State * list Effect :=
  let newStartTime := Qround.Qfloor value in
  let duration := (endTime s - newStartTime)%Z in
  if (duration <? 1)%Z
  then (s, [Alert "Warning" "Trim duration must be at least 1 second."])
  else
    let s1 := if (duration >? 5)%Z
              then setEndTime (newStartTime + 5)%Z s else s in
    let s2 := setStartTime newStartTime s1 in
    (s2,
     if hasVideoRef && negb (isPlaying s)
     then [SetPositionAsync (newStartTime * 1000)%Z] else []).

Definition handleEndTimeChange (hasVideoRef : bool) (value : QArith_base.Q)
           (s : State) : State * list Effect :=
  let newEndTime := Qround.Qfloor value in
  let duration := (newEndTime - startTime s)%Z in
  if (duration <? 1)%Z
  then (s, [Alert "Warning" "Trim duration must be at least 1 second."])
  else
    let (s1, effects) :=
      if (duration >? 5)%Z
      then
        let newStartTime := (newEndTime - 5)%Z in
        (setStartTime newStartTime s,
         if hasVideoRef && negb (isPlaying s)
         then [SetPositionAsync (newStartTime * 1000)%Z] else [])
      else (s, []) in
    (setEndTime newEndTime s1, effects).

(** [n] copies of [c] in front of [s]. *)
Fixpoint prepend_chars (n : nat) (c : Ascii.ascii) (s : string) : string :=
  match n with
  | O => s
  | S n' => String c (prepend_chars n' c s)
  end.

(** [s.padStart(targetLength, c)] for a one-character pad string. *)
Definition padStart (targetLength : nat) (c : Ascii.ascii) (s : string)
  : string :=
  prepend_chars (targetLength - String.length s) c s.

(** [formatTime], for a whole number of seconds; [formatDuration] of the
    list card and of the details screen is the same code.
    [Math.floor(t / 60)] is the floored quotient and [t % 60] the remainder
    with the sign of [t]. *)
Definition formatTime (timeInSeconds : Z) : string :=
  let minutes := (timeInSeconds / 60)%Z in
  let seconds := Z.rem timeInSeconds 60 in
  padStart 2 "0"%char (num_toString minutes) ++ ":" ++
  padStart 2 "0"%char (num_toString seconds).

(** Reading a displayed ["MM:SS"] back as seconds; used to state that the
    display can be told apart. *)
Definition digit_value (c : Ascii.ascii) : option Z :=
  let n := Ascii.nat_of_ascii c in
  if ((48 <=? n) && (n <=? 57))%nat then Some (Z.of_nat (n - 48)) else None.

Definition read_mmss (s : string) : option Z :=
  match s with
  | String m1 (String m0 (String sep (String s1 (String s0 EmptyString)))) =>
      match digit_value m1, digit_value m0, digit_value s1, digit_value s0 with
      | Some a, Some b, Some c, Some d =>
          if Ascii.eqb sep ":"%char
          then Some ((10 * a + b) * 60 + (10 * c + d))%Z
          else None
      | _, _, _, _ => None
      end
  | _ => None
  end.

End VideoTrimmer.

(** ** Concrete surroundings used to run the code *)

Module Scenario.

(** A clock that advances by one millisecond per reading. *)
Definition clock (n : nat) : Z := (1700000000000 + Z.of_nat n)%Z.

(** File system and FFmpeg both succeed; the output directories do not exist
    yet. *)
Definition env_ok : Env Z :=
  {| now := clock;
     documentDirectory := "file:///data/";
     getInfo_exists := fun _ _ => Resolves false;
     makeDirectory := fun _ _ => Resolves tt;
     ffmpeg_isSuccess := fun _ _ => Resolves true |}.

(** FFmpeg returns a failure code on every run. *)
Definition env_trim_fails : Env Z :=
  {| now := clock;
     documentDirectory := "file:///data/";
     getInfo_exists := fun _ _ => Resolves true;
     makeDirectory := fun _ _ => Resolves tt;
     ffmpeg_isSuccess := fun _ _ => Resolves false |}.

Definition is_ffmpeg (ev : Event) : bool :=
  match ev with FFmpegExecute _ => true | _ => false end.

(** The first FFmpeg run (the trim) succeeds, later ones are rejected. *)
Definition env_thumbnail_fails : Env Z :=
  {| now := clock;
     documentDirectory := "file:///data/";
     getInfo_exists := fun _ _ => Resolves true;
     makeDirectory := fun _ _ => Resolves tt;
     ffmpeg_isSuccess := fun tr _ =>
       if existsb is_ffmpeg tr then Rejects (Error "ffmpeg crashed")
       else Resolves true |}.

Definition video (i : string) (t : Z) : VideoItem Z :=
  mkVideoItem i ("file:///data/videos/" ++ i ++ ".mp4") ("clip " ++ i) ""
              3%Z t (Some ("file:///data/thumbnails/" ++ i ++ ".jpg")).

Definition v1 : VideoItem Z := video "1" 100%Z.
Definition v2 : VideoItem Z := video "2" 200%Z.
Definition v3 : VideoItem Z := video "3" 300%Z.

(** A second record that reuses the id of [v1]. *)
Definition v1' : VideoItem Z :=
  mkVideoItem "1" "file:///data/videos/other.mp4" "other" "dup" 4%Z 400%Z None.

Definition world_of (vs : list (VideoItem Z)) : World Z :=
  with_videos vs initialWorld.

(** The create form with a picked video, the range 0..5 and no title. *)
Definition form_without_title : VideoCreateScreen.State Z :=
  VideoCreateScreen.mkState VideoCreateScreen.metadata (Some "file:///in.mov")
                            0%Z 5%Z "" ""
                            (VideoCreateScreen.mkFormErrors None None).

(** A clock that stands still: every reading falls in the same millisecond. *)
Definition env_same_ms : Env Z :=
  {| now := fun _ => 1700000000000%Z;
     documentDirectory := "file:///data/";
     getInfo_exists := fun _ _ => Resolves true;
     makeDirectory := fun _ _ => Resolves tt;
     ffmpeg_isSuccess := fun _ _ => Resolves true |}.

(** The edit form for the record "2" with a valid and with an empty title. *)
Definition edit_form (title : string) : VideoEditScreen.State Z :=
  VideoEditScreen.mkState "2" 1%Z 4%Z title "text"
                          (VideoCreateScreen.mkFormErrors None None).

(** The create form with a picked video and the given title. *)
Definition create_form (picked : option string) (title : string)
  : VideoCreateScreen.State Z :=
  VideoCreateScreen.mkState VideoCreateScreen.metadata picked 0%Z 5%Z title ""
                            (VideoCreateScreen.mkFormErrors None None).


(** The picker resolved with two assets. *)
Definition picked_two : useVideoOperations.PickerResult :=
  useVideoOperations.mkPickerResult
    false (Some ["file:///a.mov"; "file:///b.mov"]).

(** A world whose edit mutation failed earlier. *)
Definition world_after_failed_edit : World Z :=
  exec (useVideoOperations.editVideo env_ok "9" "file:///in.mov" 0%Z 5%Z
                                     "Clip" "")
       (world_of [v1; v2]).

(** A world in which one video was created while the clock stood still. *)
Definition world_after_first_create : World Z :=
  exec (useVideoOperations.cropVideo env_same_ms "file:///a.mov" 0%Z 5%Z
                                     "A" "")
       initialWorld.

(** A trimmer showing the range 0..5 of a paused video. *)
Definition trimmer_0_5 : VideoTrimmer.State := VideoTrimmer.mkState 0 5 false.

End Scenario.

(** * Properties *)

Unset Implicit Arguments.
Open Scope list_scope.

(** ** The monad's equations *)

Section MonadFacts.
Context {num : Type}.
Implicit Types w : World num.

Lemma bind_normal {A B} {m : M A} (k : A -> M B) {w a w'} :
  m w = (Normal a, w') -> bind m k w = k a w'.
Proof. intros E. unfold bind. now rewrite E. Qed.

Lemma with_videos_same w : with_videos (videos w) w = w.
Proof. now destruct w. Qed.

End MonadFacts.

(** ** The store *)

Section StoreFacts.
Import videoStore.
Context {num : Type}.
Implicit Types (w : World num) (r x y : VideoItem num) (l : list (VideoItem num)).

Lemma run_addVideo r w :
  videoStore.addVideo r w = (Normal tt, with_videos (r :: videos w) w).
Proof. reflexivity. Qed.

Lemma run_updateVideo r w :
  videoStore.updateVideo r w =
  (Normal tt,
   with_videos (map (fun v => if same_id (id r) v then r else v) (videos w)) w).
Proof. reflexivity. Qed.

Lemma run_removeVideo i w :
  videoStore.removeVideo i w =
  (Normal tt, with_videos (filter (fun v => negb (same_id i v)) (videos w)) w).
Proof. reflexivity. Qed.

Lemma run_getVideoById i w :
  videoStore.getVideoById i w = (Normal (find (same_id i) (videos w)), w).
Proof. reflexivity. Qed.

Lemma same_id_true i x : same_id i x = true <-> id x = i.
Proof. apply String.eqb_eq. Qed.

Lemma same_id_false i x : same_id i x = false <-> id x <> i.
Proof. apply String.eqb_neq. Qed.

Lemma map_replace_miss r l :
  (forall y, In y l -> id y <> id r) ->
  map (fun v => if same_id (id r) v then r else v) l = l.
Proof.
  induction l as [|a l IH]; intros Hno; simpl; [reflexivity|].
  assert (Ha : same_id (id r) a = false)
    by (apply same_id_false, Hno; now left).
  rewrite Ha, IH; [reflexivity|].
  intros y Hy. apply Hno. now right.
Qed.

Lemma filter_remove_miss i l :
  (forall y, In y l -> id y <> i) ->
  filter (fun v => negb (same_id i v)) l = l.
Proof.
  induction l as [|a l IH]; intros Hno; simpl; [reflexivity|].
  assert (Ha : same_id i a = false) by (apply same_id_false, Hno; now left).
  rewrite Ha; simpl. f_equal. apply IH.
  intros y Hy. apply Hno. now right.
Qed.

Lemma find_miss i l :
  (forall y, In y l -> id y <> i) -> find (same_id i) l = None.
Proof.
  induction l as [|a l IH]; intros Hno; simpl; [reflexivity|].
  assert (Ha : same_id i a = false) by (apply same_id_false, Hno; now left).
  rewrite Ha. apply IH. intros y Hy. apply Hno. now right.
Qed.

Lemma find_first i l1 x l2 :
  id x = i -> (forall y, In y l1 -> id y <> i) ->
  find (same_id i) (l1 ++ x :: l2) = Some x.
Proof.
  intros Hx. induction l1 as [|a l1 IH]; intros Hno; simpl.
  - apply same_id_true in Hx. now rewrite Hx.
  - assert (Ha : same_id i a = false) by (apply same_id_false, Hno; now left).
    rewrite Ha. apply IH. intros y Hy. apply Hno. now right.
Qed.

Lemma find_after_remove i l :
  find (same_id i) (filter (fun v => negb (same_id i v)) l) = None.
Proof.
  apply find_miss. intros y Hy. apply filter_In in Hy as [_ Hy].
  apply same_id_false. now apply negb_true_iff.
Qed.

Lemma not_in_app_cons (P : VideoItem num -> Prop) l1 l2 :
  (forall y, In y (l1 ++ l2) -> P y) ->
  (forall y, In y l1 -> P y) /\ (forall y, In y l2 -> P y).
Proof.
  intros H; split; intros y Hy; apply H, in_or_app; [now left | now right].
Qed.

Lemma run_addVideo_each rs w :
  videoStore.addVideo_each rs w = (Normal tt, with_videos (rev rs ++ videos w) w).
Proof.
  revert w. induction rs as [|r rs IH]; intros w; simpl.
  - unfold ret. now rewrite with_videos_same.
  - rewrite (bind_normal _ (run_addVideo r w)), IH. simpl.
    now rewrite <- app_assoc.
Qed.

End StoreFacts.

Section StoreClaims.
Import videoStore.
Context {num : Type}.
Implicit Types (w : World num) (r x y : VideoItem num) (l : list (VideoItem num)).

(** C6.  [add r] puts [r] in front of the collection and keeps the records
    already there, in their order (nothing else in the world changes, and the
    call does not throw).  Hence [n] successive [add] calls leave the [n]
    records in reverse order of insertion, the newest first: in front of what
    was there before, and alone when the collection was empty.  Distinct ids
    are not needed for this. *)
Theorem C6_add_prepends :
  (forall w r,
      addVideo r w = (Normal tt, with_videos (r :: videos w) w) /\
      videos (exec (addVideo r) w) = r :: videos w) /\
  (forall w rs,
      eval (addVideo_each rs) w = Normal tt /\
      videos (exec (addVideo_each rs) w) = rev rs ++ videos w) /\
  (forall rs,
      videos (exec (addVideo_each rs) (@initialWorld num)) = rev rs /\
      length (videos (exec (addVideo_each rs) (@initialWorld num))) = length rs).
Proof.
  repeat split; intros.
  - unfold eval. now rewrite run_addVideo_each.
  - unfold exec. now rewrite run_addVideo_each.
  - unfold exec. rewrite run_addVideo_each. simpl. apply app_nil_r.
  - unfold exec. rewrite run_addVideo_each. simpl.
    now rewrite app_nil_r, length_rev.
Qed.

(** C7.  [update r]: when exactly one record carries the id of [r]
    (the collection is [l1 ++ x :: l2] with [x] the only such record), the
    result is [l1 ++ r :: l2]: same place, same length, the others untouched.
    When no record carries the id, nothing changes at all. *)
Theorem C7_update_in_place w r :
  (forall l1 x l2,
      videos w = l1 ++ x :: l2 ->
      id x = id r ->
      (forall y, In y (l1 ++ l2) -> id y <> id r) ->
      videos (exec (updateVideo r) w) = l1 ++ r :: l2 /\
      length (videos (exec (updateVideo r) w)) = length (videos w)) /\
  ((forall y, In y (videos w) -> id y <> id r) ->
   updateVideo r w = (Normal tt, w)).
Proof.
  split.
  - intros l1 x l2 Hv Hx Hno.
    apply not_in_app_cons in Hno as [H1 H2].
    unfold exec. rewrite run_updateVideo. simpl. rewrite Hv.
    rewrite length_map, map_app. simpl.
    rewrite (map_replace_miss r l1 H1), (map_replace_miss r l2 H2).
    apply same_id_true in Hx. rewrite Hx. split; [reflexivity|].
    rewrite !length_app. reflexivity.
  - intros Hno. rewrite run_updateVideo, (map_replace_miss r _ Hno).
    now rewrite with_videos_same.
Qed.

(** C8.  [remove i] keeps exactly the records whose id is not [i], in their
    order: when one record [x] carries the id, [l1 ++ x :: l2] becomes
    [l1 ++ l2]; when none does, nothing changes at all; and a lookup of [i]
    after the removal finds nothing, whether or not [i] was present. *)
Theorem C8_remove w i :
  (forall y, In y (videos (exec (removeVideo i) w)) <->
             In y (videos w) /\ id y <> i) /\
  (forall l1 x l2,
      videos w = l1 ++ x :: l2 ->
      id x = i ->
      (forall y, In y (l1 ++ l2) -> id y <> i) ->
      videos (exec (removeVideo i) w) = l1 ++ l2) /\
  ((forall y, In y (videos w) -> id y <> i) ->
   removeVideo i w = (Normal tt, w)) /\
  eval (getVideoById i) (exec (removeVideo i) w) = Normal None.
Proof.
  unfold exec, eval. rewrite run_removeVideo. simpl.
  split; [|split; [|split]].
  - intros y. rewrite filter_In, negb_true_iff.
    now rewrite same_id_false.
  - intros l1 x l2 Hv Hx Hno.
    apply not_in_app_cons in Hno as [H1 H2].
    rewrite Hv, filter_app. simpl.
    apply same_id_true in Hx. rewrite Hx. simpl.
    now rewrite (filter_remove_miss i l1 H1), (filter_remove_miss i l2 H2).
  - intros Hno. rewrite (filter_remove_miss i _ Hno).
    now rewrite with_videos_same.
  - f_equal. apply find_after_remove.
Qed.

(** C9.  [getById i] finds nothing in the empty collection.  In general it
    answers with a record of the collection whose id is [i] whenever there is
    one, and with "not found" ([None], JavaScript's [undefined]) exactly when
    there is none; it never throws and leaves the whole world as it was. *)
Theorem C9_getVideoById w i :
  eval (getVideoById i) (with_videos [] w) = Normal None /\
  (forall r, eval (getVideoById i) w = Normal (Some r) ->
             In r (videos w) /\ id r = i) /\
  ((exists x, In x (videos w) /\ id x = i) ->
   exists r, eval (getVideoById i) w = Normal (Some r)) /\
  (eval (getVideoById i) w = Normal None <->
   forall y, In y (videos w) -> id y <> i) /\
  exec (getVideoById i) w = w.
Proof.
  unfold eval, exec. rewrite !run_getVideoById. simpl.
  split; [reflexivity|]. split; [|split; [|split; [|reflexivity]]].
  - intros r H. injection H as H. apply find_some in H as [Hin H].
    split; [assumption | now apply same_id_true].
  - intros [x [Hin Hx]].
    destruct (find (same_id i) (videos w)) as [r|] eqn:E; [now exists r|].
    exfalso. apply (find_none _ _ E) in Hin.
    apply same_id_false in Hin. contradiction.
  - split.
    + intros H y Hin. injection H as H.
      apply same_id_false. apply (find_none _ _ H y Hin).
    + intros Hno. f_equal. now apply find_miss.
Qed.

(** C10.  The store does not keep ids unique.  Adding [r] while the id of [r]
    is already carried by [k] records leaves [k + 1] records with that id.
    On any collection, [update r'] puts [r'] at every position that held a
    record with the id of [r'] (and leaves the other positions alone),
    [remove i] leaves no record with id [i], and [getById i] answers with the
    first record with id [i] in collection order, which right after
    [add r] is [r] itself. *)
Theorem C10_ids_not_unique w :
  (forall r,
      count_id (id r) (videos (exec (addVideo r) w)) =
      S (count_id (id r) (videos w))) /\
  (forall r' n x,
      nth_error (videos w) n = Some x ->
      nth_error (videos (exec (updateVideo r') w)) n =
      Some (if same_id (id r') x then r' else x)) /\
  (forall i, count_id i (videos (exec (removeVideo i) w)) = 0) /\
  (forall i l1 x l2,
      videos w = l1 ++ x :: l2 ->
      id x = i ->
      (forall y, In y l1 -> id y <> i) ->
      eval (getVideoById i) w = Normal (Some x)) /\
  (forall r, eval (getVideoById (id r)) (exec (addVideo r) w) = Normal (Some r)).
Proof.
  unfold exec, eval. split; [|split; [|split; [|split]]].
  - intros r. rewrite run_addVideo. simpl. unfold count_id. simpl.
    assert (E : same_id (id r) r = true) by now apply same_id_true.
    now rewrite E.
  - intros r' n x Hn. rewrite run_updateVideo. simpl.
    rewrite nth_error_map, Hn. reflexivity.
  - intros i. rewrite run_removeVideo. simpl. unfold count_id.
    destruct (filter (same_id i) (filter (fun v => negb (same_id i v)) (videos w)))
      as [|y l'] eqn:E; [reflexivity|].
    assert (Hy : In y (y :: l')) by now left.
    rewrite <- E in Hy. apply filter_In in Hy as [Hy Hs].
    apply filter_In in Hy as [_ Hy]. rewrite Hs in Hy. discriminate.
  - intros i l1 x l2 Hv Hx Hno. rewrite run_getVideoById. simpl.
    rewrite Hv. f_equal. now apply find_first.
  - intros r. rewrite run_addVideo, run_getVideoById. simpl.
    assert (E : same_id (id r) r = true) by now apply same_id_true.
    now rewrite E.
Qed.

End StoreClaims.

(** ** The gateway *)

Section GatewayFacts.
Context {num : Type} {N : JSNumber num}.
Variable env : Env num.
Implicit Types w : World num.

Ltac run_gateway :=
  cbv [videoService.cropVideo videoService.generateThumbnail try_catch bind
       FileSystem_getInfoAsync_exists FileSystem_makeDirectoryAsync
       FFmpegKit_execute_isSuccess Date_now await ret throw negb];
  repeat (match goal with
          | |- context [getInfo_exists ?e ?t ?p] =>
              destruct (getInfo_exists e t p) as [[|]|?]
          | |- context [makeDirectory ?e ?t ?p] =>
              destruct (makeDirectory e t p) as [?|?]
          | |- context [ffmpeg_isSuccess ?e ?t ?c] =>
              destruct (ffmpeg_isSuccess e t c) as [[|]|?]
          end; cbv beta iota zeta);
  intros E; inversion E; subst; clear E.

(** The trim call reads no clock and leaves everything but the trace alone;
    when it returns, it returns the output path it was asked to write. *)
Lemma cropVideo_spec params w r w' :
  videoService.cropVideo env params w = (r, w') ->
  w' = with_trace (trace w') w /\
  forall croppedUri, r = Normal croppedUri ->
    croppedUri =
    ((documentDirectory env ++ "videos/") ++ outputFileName params ++ ".mp4")%string.
Proof.
  run_gateway; (split; [reflexivity | intros u Hu; now inversion Hu]).
Qed.

(** The thumbnail call reads the clock once and otherwise only extends the
    trace; when it returns, it returns the path of a [.jpg] file named after
    that clock reading. *)
Lemma generateThumbnail_spec videoUri w r w' :
  videoService.generateThumbnail env videoUri w = (r, w') ->
  w' = with_trace (trace w') (with_ticks (S (ticks w)) w) /\
  forall thumb, r = Normal thumb ->
    thumb =
    ((documentDirectory env ++ "thumbnails/")
       ++ num_toString (now env (ticks w)) ++ ".jpg")%string.
Proof.
  run_gateway; (split; [reflexivity | intros u Hu; now inversion Hu]).
Qed.

Lemma append_nonempty (s t : string) :
  t <> ""%string -> (s ++ t)%string <> ""%string.
Proof.
  intros Ht. induction s as [|c s IH]; simpl; [assumption | discriminate].
Qed.

End GatewayFacts.

(** ** The workflows *)

Section WorkflowFacts.
Import useVideoOperations.
Context {num : Type} {N : JSNumber num}.
Variable env : Env num.
Implicit Types w : World num.

Ltac run_workflow :=
  cbv [cropVideoMutation_mutationFn editVideoMutation_mutationFn
       videoStore.getVideoById videoStore.get_videos
       videoStore.addVideo videoStore.updateVideo videoStore.set
       bind setIsLoading setError try_finally try_catch Date_now exec eval
       fst snd ret throw];
  cbn [ticks videos trace isLoading error with_ticks with_error with_isLoading
       with_videos with_trace with_cropVideoMutation with_editVideoMutation].

Lemma create_fn_success w0 videoUri a b title desc croppedUri thumb w2 w3 :
  let w1 := exec (setIsLoading true ;; setError None ;; Date_now env) w0 in
  videoService.cropVideo env
    (mkCropParams videoUri a b ("video_" ++ num_toString (now env (ticks w0))))
    w1 = (Normal croppedUri, w2) ->
  videoService.generateThumbnail env croppedUri w2 = (Normal thumb, w3) ->
  let newVideo :=
    mkVideoItem (num_toString (now env (ticks w3))) croppedUri title desc
                (num_sub b a) (now env (S (ticks w3))) (Some thumb) in
  cropVideoMutation_mutationFn env videoUri a b title desc w0 =
  (Normal newVideo,
   with_isLoading false
     (with_videos (newVideo :: videos w3) (with_ticks (S (S (ticks w3))) w3))).
Proof.
  intros w1 H1 H2 newVideo. subst w1 newVideo. revert H1.
  run_workflow. intros H1. rewrite H1, H2. reflexivity.
Qed.

Lemma create_fn_trim_fails w0 videoUri a b title desc e w2 :
  let w1 := exec (setIsLoading true ;; setError None ;; Date_now env) w0 in
  videoService.cropVideo env
    (mkCropParams videoUri a b ("video_" ++ num_toString (now env (ticks w0))))
    w1 = (Throw e, w2) ->
  cropVideoMutation_mutationFn env videoUri a b title desc w0 =
  (Throw e,
   with_isLoading false
     (with_error (Some "An error occurred during video processing"%string) w2)).
Proof.
  intros w1 H1. subst w1. revert H1.
  run_workflow. intros H1. rewrite H1. reflexivity.
Qed.

Lemma create_fn_thumbnail_fails w0 videoUri a b title desc croppedUri e w2 w3 :
  let w1 := exec (setIsLoading true ;; setError None ;; Date_now env) w0 in
  videoService.cropVideo env
    (mkCropParams videoUri a b ("video_" ++ num_toString (now env (ticks w0))))
    w1 = (Normal croppedUri, w2) ->
  videoService.generateThumbnail env croppedUri w2 = (Throw e, w3) ->
  cropVideoMutation_mutationFn env videoUri a b title desc w0 =
  (Throw e,
   with_isLoading false
     (with_error (Some "An error occurred during video processing"%string) w3)).
Proof.
  intros w1 H1 H2. subst w1. revert H1.
  run_workflow. intros H1. rewrite H1, H2. reflexivity.
Qed.

Lemma edit_fn_not_found w0 videoId videoUri a b title desc :
  find (videoStore.same_id videoId) (videos w0) = None ->
  editVideoMutation_mutationFn env videoId videoUri a b title desc w0 =
  (Throw (Error "Video not found"),
   with_isLoading false
     (with_error (Some "An error occurred during video editing"%string)
        (with_error None (with_isLoading true w0)))).
Proof.
  unfold videoStore.same_id. intros Hfind.
  run_workflow. rewrite Hfind. reflexivity.
Qed.

Lemma edit_fn_success w0 videoId videoUri a b title desc existing
      croppedUri thumb w2 w3 :
  find (videoStore.same_id videoId) (videos w0) = Some existing ->
  let w1 := exec (setIsLoading true ;; setError None ;; Date_now env) w0 in
  videoService.cropVideo env
    (mkCropParams videoUri a b
                  ("video_edit_" ++ num_toString (now env (ticks w0))))
    w1 = (Normal croppedUri, w2) ->
  videoService.generateThumbnail env croppedUri w2 = (Normal thumb, w3) ->
  let updatedVideo :=
    mkVideoItem (id existing) croppedUri title desc (num_sub b a)
                (createdAt existing) (Some thumb) in
  editVideoMutation_mutationFn env videoId videoUri a b title desc w0 =
  (Normal updatedVideo,
   with_isLoading false
     (with_videos
        (map (fun v => if videoStore.same_id (id existing) v
                       then updatedVideo else v) (videos w3))
        w3)).
Proof.
  intros Hfind w1 H1 H2 updatedVideo. unfold videoStore.same_id in Hfind.
  subst w1 updatedVideo. revert H1.
  run_workflow. intros H1. rewrite Hfind. run_workflow.
  rewrite H1, H2. reflexivity.
Qed.

Lemma edit_fn_trim_fails w0 videoId videoUri a b title desc existing e w2 :
  find (videoStore.same_id videoId) (videos w0) = Some existing ->
  let w1 := exec (setIsLoading true ;; setError None ;; Date_now env) w0 in
  videoService.cropVideo env
    (mkCropParams videoUri a b
                  ("video_edit_" ++ num_toString (now env (ticks w0))))
    w1 = (Throw e, w2) ->
  editVideoMutation_mutationFn env videoId videoUri a b title desc w0 =
  (Throw e,
   with_isLoading false
     (with_error (Some "An error occurred during video editing"%string) w2)).
Proof.
  intros Hfind w1 H1. unfold videoStore.same_id in Hfind. subst w1. revert H1.
  run_workflow. intros H1. rewrite Hfind. run_workflow.
  rewrite H1. reflexivity.
Qed.

Lemma edit_fn_thumbnail_fails w0 videoId videoUri a b title desc existing
      croppedUri e w2 w3 :
  find (videoStore.same_id videoId) (videos w0) = Some existing ->
  let w1 := exec (setIsLoading true ;; setError None ;; Date_now env) w0 in
  videoService.cropVideo env
    (mkCropParams videoUri a b
                  ("video_edit_" ++ num_toString (now env (ticks w0))))
    w1 = (Normal croppedUri, w2) ->
  videoService.generateThumbnail env croppedUri w2 = (Throw e, w3) ->
  editVideoMutation_mutationFn env videoId videoUri a b title desc w0 =
  (Throw e,
   with_isLoading false
     (with_error (Some "An error occurred during video editing"%string) w3)).
Proof.
  intros Hfind w1 H1 H2. unfold videoStore.same_id in Hfind. subst w1.
  revert H1.
  run_workflow. intros H1. rewrite Hfind. run_workflow.
  rewrite H1, H2. reflexivity.
Qed.

(** Neither gateway call touches the collection. *)
Lemma cropVideo_videos params w r w' :
  videoService.cropVideo env params w = (r, w') -> videos w' = videos w.
Proof.
  intros H. apply cropVideo_spec in H as [H _]. now rewrite H.
Qed.

Lemma generateThumbnail_videos videoUri w r w' :
  videoService.generateThumbnail env videoUri w = (r, w') ->
  videos w' = videos w.
Proof.
  intros H. apply generateThumbnail_spec in H as [H _]. now rewrite H.
Qed.

Lemma generateThumbnail_nonempty videoUri w thumb w' :
  videoService.generateThumbnail env videoUri w = (Normal thumb, w') ->
  thumb <> ""%string.
Proof.
  intros H. apply generateThumbnail_spec in H as [_ H].
  rewrite (H thumb eq_refl).
  apply append_nonempty, append_nonempty. discriminate.
Qed.

Lemma getVideoById_find videoId w existing :
  eval (videoStore.getVideoById videoId) w = Normal existing ->
  find (videoStore.same_id videoId) (videos w) = existing.
Proof.
  unfold eval. rewrite run_getVideoById. simpl. now intros [= ->].
Qed.

End WorkflowFacts.

Section WorkflowClaims.
Import useVideoOperations.
Context {num : Type} {N : JSNumber num}.
Variable env : Env num.
Implicit Types w : World num.

Ltac run_mutate :=
  cbv [cropVideo editVideo mutate invalidateQueries exec eval fst snd];
  cbn [ticks videos trace isLoading error with_ticks with_error with_isLoading
       with_videos with_trace with_cropVideoMutation with_editVideoMutation
       with_invalidations cropVideoMutation editVideoMutation status data
       mutationError].

(** The create workflow when the trim call and then the thumbnail call, made
    where the workflow makes them, both return. *)
Lemma create_success w videoUri a b title desc croppedUri thumb w2 w3 :
  let w1 := exec (setIsLoading true ;; setError None ;; Date_now env)
                 (with_cropVideoMutation pendingMutation w) in
  videoService.cropVideo env
    (mkCropParams videoUri a b ("video_" ++ num_toString (now env (ticks w))))
    w1 = (Normal croppedUri, w2) ->
  videoService.generateThumbnail env croppedUri w2 = (Normal thumb, w3) ->
  let w' := exec (cropVideo env videoUri a b title desc) w in
  let newVideo :=
    mkVideoItem (num_toString (now env (ticks w3))) croppedUri title desc
                (num_sub b a) (now env (S (ticks w3))) (Some thumb) in
  videos w' = newVideo :: videos w /\
  status (cropVideoMutation w') = Success /\
  data (cropVideoMutation w') = Some newVideo /\
  thumb <> ""%string.
Proof.
  intros w1 H1 H2 w' newVideo.
  pose proof (cropVideo_videos env _ _ _ _ H1) as V1.
  pose proof (generateThumbnail_videos env _ _ _ _ H2) as V2.
  pose proof (generateThumbnail_nonempty env _ _ _ _ H2) as Hne.
  pose proof (create_fn_success env (with_cropVideoMutation pendingMutation w)
                videoUri a b title desc croppedUri thumb w2 w3 H1 H2) as Hrun.
  subst w' w1 newVideo. revert V1 Hrun. run_mutate. intros V1 Hrun.
  rewrite Hrun. run_mutate.
  rewrite V2, V1. repeat split; try reflexivity. exact Hne.
Qed.

(** C2.  The edit workflow on an id the store resolves to [existing], when
    the trim call and then the thumbnail call both return: the workflow ends in
    SUCCESS with the record [updatedVideo], which has the id and [createdAt]
    of [existing], the trimmed locator, the new title and description, the
    duration [b - a] and the new thumbnail.  The collection keeps its length;
    every position that held a record with this id now holds [updatedVideo],
    every other position holds what it held; so when [existing] is the only
    record with the id, it alone is replaced, in place. *)
Theorem C2_edit_replaces_record
        w videoId videoUri a b title desc existing croppedUri thumb w2 w3 :
  eval (videoStore.getVideoById videoId) w = Normal (Some existing) ->
  let w1 := exec (setIsLoading true ;; setError None ;; Date_now env)
                 (with_editVideoMutation pendingMutation w) in
  videoService.cropVideo env
    (mkCropParams videoUri a b
                  ("video_edit_" ++ num_toString (now env (ticks w))))
    w1 = (Normal croppedUri, w2) ->
  videoService.generateThumbnail env croppedUri w2 = (Normal thumb, w3) ->
  let w' := exec (editVideo env videoId videoUri a b title desc) w in
  let updatedVideo :=
    mkVideoItem (id existing) croppedUri title desc (num_sub b a)
                (createdAt existing) (Some thumb) in
  id existing = videoId /\
  status (editVideoMutation w') = Success /\
  data (editVideoMutation w') = Some updatedVideo /\
  length (videos w') = length (videos w) /\
  (forall n x,
      nth_error (videos w) n = Some x ->
      nth_error (videos w') n =
      Some (if videoStore.same_id videoId x then updatedVideo else x)) /\
  (forall l1 l2,
      videos w = l1 ++ existing :: l2 ->
      (forall y, In y (l1 ++ l2) -> id y <> videoId) ->
      videos w' = l1 ++ updatedVideo :: l2).
Proof.
  intros Hget w1 H1 H2 w' updatedVideo.
  apply getVideoById_find in Hget.
  assert (Hid : id existing = videoId).
  { apply find_some in Hget as [_ Hget]. now apply same_id_true. }
  pose proof (cropVideo_videos env _ _ _ _ H1) as V1.
  change (videos w2 = videos w) in V1.
  pose proof (generateThumbnail_videos env _ _ _ _ H2) as V2.
  pose proof (edit_fn_success env (with_editVideoMutation pendingMutation w)
                videoId videoUri a b title desc existing croppedUri thumb
                w2 w3 Hget H1 H2) as Hrun.
  subst w' w1. revert V1 Hrun. run_mutate. intros V1 Hrun.
  rewrite Hrun. run_mutate. fold updatedVideo.
  rewrite V2, V1, Hid.
  split; [reflexivity|]. split; [reflexivity|]. split; [reflexivity|].
  split; [apply length_map|]. split.
  - intros n x Hn. now rewrite nth_error_map, Hn.
  - intros l1 l2 Hv Hno. apply not_in_app_cons in Hno as [Hl1 Hl2].
    assert (Hu : id updatedVideo = videoId) by exact Hid.
    rewrite <- Hu in Hl1, Hl2.
    rewrite Hv, map_app. simpl.
    rewrite <- Hu.
    rewrite (map_replace_miss updatedVideo l1 Hl1),
            (map_replace_miss updatedVideo l2 Hl2).
    assert (E : videoStore.same_id (id updatedVideo) existing = true)
      by (apply same_id_true; now rewrite Hu).
    now rewrite E.
Qed.

(** C4.  The edit workflow on an id that no record of the store carries: the
    workflow ends in FAILED with the error "Video not found"; no external call
    has been made (the trace is as before, and not even the clock was read) and
    the collection is as before.  The message the hook shows is its own,
    "An error occurred during video editing". *)
Theorem C4_edit_not_found w videoId videoUri a b title desc :
  (forall y, In y (videos w) -> id y <> videoId) ->
  let w' := exec (editVideo env videoId videoUri a b title desc) w in
  status (editVideoMutation w') = Failed /\
  mutationError (editVideoMutation w') = Some (Error "Video not found") /\
  trace w' = trace w /\
  ticks w' = ticks w /\
  videos w' = videos w /\
  hook_error w' = Some "An error occurred during video editing"%string.
Proof.
  intros Hno w'. apply find_miss in Hno.
  pose proof (edit_fn_not_found env (with_editVideoMutation pendingMutation w)
                videoId videoUri a b title desc Hno) as Hrun.
  subst w'. run_mutate. rewrite Hrun. run_mutate.
  repeat split.
Qed.

(** C5.  When the trim call or the thumbnail call of a create or edit
    workflow throws [e], the workflow ends in FAILED with [e] as its error, the
    hook shows its message for that workflow, and the collection is the one the
    workflow started with. *)
Theorem C5_gateway_failure_keeps_store w videoUri a b title desc :
  (* create *)
  (let w1 := exec (setIsLoading true ;; setError None ;; Date_now env)
                  (with_cropVideoMutation pendingMutation w) in
   let params :=
     mkCropParams videoUri a b ("video_" ++ num_toString (now env (ticks w))) in
   let w' := exec (cropVideo env videoUri a b title desc) w in
   forall e,
     ((exists w2, videoService.cropVideo env params w1 = (Throw e, w2)) \/
      (exists croppedUri w2 w3,
          videoService.cropVideo env params w1 = (Normal croppedUri, w2) /\
          videoService.generateThumbnail env croppedUri w2 = (Throw e, w3))) ->
     status (cropVideoMutation w') = Failed /\
     mutationError (cropVideoMutation w') = Some e /\
     hook_error w' = Some "An error occurred during video processing"%string /\
     videos w' = videos w) /\
  (* edit *)
  (forall videoId existing,
     eval (videoStore.getVideoById videoId) w = Normal (Some existing) ->
     let w1 := exec (setIsLoading true ;; setError None ;; Date_now env)
                    (with_editVideoMutation pendingMutation w) in
     let params :=
       mkCropParams videoUri a b
                    ("video_edit_" ++ num_toString (now env (ticks w))) in
     let w' := exec (editVideo env videoId videoUri a b title desc) w in
     forall e,
       ((exists w2, videoService.cropVideo env params w1 = (Throw e, w2)) \/
        (exists croppedUri w2 w3,
            videoService.cropVideo env params w1 = (Normal croppedUri, w2) /\
            videoService.generateThumbnail env croppedUri w2 = (Throw e, w3))) ->
       status (editVideoMutation w') = Failed /\
       mutationError (editVideoMutation w') = Some e /\
       hook_error w' = Some "An error occurred during video editing"%string /\
       videos w' = videos w).
Proof.
  split.
  - intros w1 params w' e [[w2 H1] | [croppedUri [w2 [w3 [H1 H2]]]]].
    + pose proof (cropVideo_videos env _ _ _ _ H1) as V1.
      pose proof (create_fn_trim_fails env
                    (with_cropVideoMutation pendingMutation w)
                    videoUri a b title desc e w2 H1) as Hrun.
      subst w' w1 params. revert V1 Hrun. run_mutate. intros V1 Hrun.
      rewrite Hrun. run_mutate. rewrite V1. repeat split.
    + pose proof (cropVideo_videos env _ _ _ _ H1) as V1.
      pose proof (generateThumbnail_videos env _ _ _ _ H2) as V2.
      pose proof (create_fn_thumbnail_fails env
                    (with_cropVideoMutation pendingMutation w)
                    videoUri a b title desc croppedUri e w2 w3 H1 H2) as Hrun.
      subst w' w1 params. revert V1 Hrun. run_mutate. intros V1 Hrun.
      rewrite Hrun. run_mutate. rewrite V2, V1. repeat split.
  - intros videoId existing Hget w1 params w' e
           [[w2 H1] | [croppedUri [w2 [w3 [H1 H2]]]]];
      apply getVideoById_find in Hget.
    + pose proof (cropVideo_videos env _ _ _ _ H1) as V1.
      pose proof (edit_fn_trim_fails env
                    (with_editVideoMutation pendingMutation w)
                    videoId videoUri a b title desc existing e w2 Hget H1)
        as Hrun.
      subst w' w1 params. revert V1 Hrun. run_mutate. intros V1 Hrun.
      rewrite Hrun. run_mutate. rewrite V1. repeat split.
    + pose proof (cropVideo_videos env _ _ _ _ H1) as V1.
      pose proof (generateThumbnail_videos env _ _ _ _ H2) as V2.
      pose proof (edit_fn_thumbnail_fails env
                    (with_editVideoMutation pendingMutation w)
                    videoId videoUri a b title desc existing croppedUri e
                    w2 w3 Hget H1 H2) as Hrun.
      subst w' w1 params. revert V1 Hrun. run_mutate. intros V1 Hrun.
      rewrite Hrun. run_mutate. rewrite V2, V1. repeat split.
Qed.

End WorkflowClaims.

(** C1.  The create workflow with start [a], end [b], a title and a
    description, when the trim call and then the thumbnail call, made where
    the workflow makes them, both return: the workflow ends in SUCCESS and the
    collection is the old one with exactly one record put in front.  That
    record has duration [b - a], the locator the trim call returned, the title
    and description as given, an id and a [createdAt] read from the clock
    after the two calls, and the thumbnail locator the thumbnail call returned,
    which is not empty.  With integer times [a = 0] and [b = 5] the stored
    duration is 5. *)
Theorem C1_create_prepends_record :
  (forall (num : Type) (N : JSNumber num) (env : Env num) (w : World num)
          (videoUri : string) (a b : num) (title desc : string)
          (croppedUri thumb : string) (w2 w3 : World num),
      let w1 := exec (useVideoOperations.setIsLoading true ;;
                      useVideoOperations.setError None ;; Date_now env)
                     (with_cropVideoMutation pendingMutation w) in
      videoService.cropVideo env
        (mkCropParams videoUri a b
                      ("video_" ++ num_toString (now env (ticks w))))
        w1 = (Normal croppedUri, w2) ->
      videoService.generateThumbnail env croppedUri w2 = (Normal thumb, w3) ->
      let w' := exec (useVideoOperations.cropVideo env videoUri a b title desc) w in
      let newVideo :=
        mkVideoItem (num_toString (now env (ticks w3))) croppedUri title desc
                    (num_sub b a) (now env (S (ticks w3))) (Some thumb) in
      videos w' = newVideo :: videos w /\
      status (cropVideoMutation w') = Success /\
      data (cropVideoMutation w') = Some newVideo /\
      thumb <> ""%string) /\
  (forall (env : Env Z) (w : World Z) (videoUri title desc : string)
          (croppedUri thumb : string) (w2 w3 : World Z),
      let w1 := exec (useVideoOperations.setIsLoading true ;;
                      useVideoOperations.setError None ;; Date_now env)
                     (with_cropVideoMutation pendingMutation w) in
      videoService.cropVideo env
        (mkCropParams videoUri 0%Z 5%Z
                      ("video_" ++ num_toString (now env (ticks w))))
        w1 = (Normal croppedUri, w2) ->
      videoService.generateThumbnail env croppedUri w2 = (Normal thumb, w3) ->
      let w' := exec (useVideoOperations.cropVideo env videoUri 0%Z 5%Z
                                                   title desc) w in
      exists newVideo,
        videos w' = newVideo :: videos w /\
        duration newVideo = 5%Z /\
        uri newVideo = croppedUri /\
        thumbnailUri newVideo = Some thumb /\
        thumb <> ""%string).
Proof.
  split.
  - intros num N env w videoUri a b title desc croppedUri thumb w2 w3 w1 H1 H2.
    exact (create_success env w videoUri a b title desc croppedUri thumb
                          w2 w3 H1 H2).
  - intros env w videoUri title desc croppedUri thumb w2 w3 w1 H1 H2 w'.
    destruct (create_success env w videoUri 0%Z 5%Z title desc croppedUri
                             thumb w2 w3 H1 H2) as [Hv [_ [_ Hne]]].
    eexists. split; [exact Hv|]. repeat split. exact Hne.
Qed.

(** ** The create screen *)

Section ScreenFacts.
Import VideoCreateScreen.
Context {num : Type} {N : JSNumber num}.
Variable env : Env num.
Implicit Types (w : World num) (s : State num).

(** A form that fails validation: [handleSaveVideo] stops before the
    workflow, so nothing in the world changes. *)
Lemma handleSaveVideo_invalid s w :
  fst (validateForm s) = false ->
  exec (handleSaveVideo env s) w = w.
Proof.
  unfold handleSaveVideo. destruct (validateForm s) as [valid s'].
  simpl. now intros ->.
Qed.

(** The empty title fails validation. *)
Lemma validateForm_empty_title s :
  VideoCreateScreen.name s = ""%string -> fst (validateForm s) = false.
Proof.
  intros Hname. unfold validateForm, videoFormSchema_issues.
  rewrite Hname. reflexivity.
Qed.

(** The button does not look at the form: with a picked video, pressing it
    starts the workflow, and the workflow's first external call is made,
    whatever the title is. *)
Lemma SaveVideo_onPress_calls_gateway s w c rest :
  selectedVideoUri s = Some (String c rest) ->
  exists ev more,
    trace (exec (SaveVideo_onPress env s) w) = trace w ++ ev :: more.
Proof.
  intros Hsel. unfold SaveVideo_onPress, handleCropVideo. rewrite Hsel.
  cbv [useVideoOperations.cropVideo useVideoOperations.mutate
       useVideoOperations.cropVideoMutation_mutationFn
       useVideoOperations.invalidateQueries useVideoOperations.setIsLoading
       useVideoOperations.setError navigate
       videoService.cropVideo videoService.generateThumbnail
       videoStore.addVideo videoStore.set
       try_finally try_catch bind Date_now exec snd ret throw await negb
       FileSystem_getInfoAsync_exists FileSystem_makeDirectoryAsync
       FFmpegKit_execute_isSuccess].
  cbn [ticks videos trace with_ticks with_error with_isLoading with_videos
       with_trace with_cropVideoMutation with_invalidations with_navigated].
  repeat (match goal with
          | |- context [getInfo_exists ?e ?t ?p] =>
              destruct (getInfo_exists e t p) as [[|]|?]
          | |- context [makeDirectory ?e ?t ?p] =>
              destruct (makeDirectory e t p) as [?|?]
          | |- context [ffmpeg_isSuccess ?e ?t ?c] =>
              destruct (ffmpeg_isSuccess e t c) as [[|]|?]
          end;
          cbv beta iota zeta;
          cbn [ticks videos trace with_ticks with_error with_isLoading
               with_videos with_trace with_cropVideoMutation
               with_invalidations with_navigated]);
    rewrite <- ?app_assoc; simpl; eexists; eexists; reflexivity.
Qed.

End ScreenFacts.

(** C3.  The empty title fails the form's validation, and [handleSaveVideo]
    would stop there with the world untouched; but the "Save Video" button is
    wired to [handleCropVideo], which does not validate: on the form with a
    picked video, the range 0..5 and the empty title, and a gateway that
    succeeds, pressing the button runs the trim and the thumbnail call and the
    store, empty before, ends with one record whose title is empty. *)
Theorem C3_save_button_skips_validation :
  let s := Scenario.form_without_title in
  let w' := exec (VideoCreateScreen.SaveVideo_onPress Scenario.env_ok s)
                 initialWorld in
  fst (VideoCreateScreen.validateForm s) = false /\
  exec (VideoCreateScreen.handleSaveVideo Scenario.env_ok s) initialWorld
  = initialWorld /\
  length (trace w') = 6 /\
  status (cropVideoMutation w') = Success /\
  exists v, videos w' = [v] /\ name v = ""%string.
Proof.
  vm_compute. repeat (split; [reflexivity|]).
  eexists. split; reflexivity.
Qed.

(** * Worked instances *)

Section Instances.
Import Scenario.

Ltac other_ids :=
  let y := fresh "y" in
  let Hy := fresh "Hy" in
  intros y Hy; simpl in Hy;
  repeat (destruct Hy as [Hy | Hy]; [subst y; vm_compute; discriminate|]);
  contradiction.

(** Scenario A: start 0, end 5, title "Clip", no description, on an empty
    store and a gateway that succeeds. *)
Lemma C1_scenario_A :
  exists newVideo,
    videos (exec (useVideoOperations.cropVideo env_ok "file:///in.mov"
                                               0%Z 5%Z "Clip" "")
                 initialWorld) = newVideo :: [] /\
    duration newVideo = 5%Z /\
    uri newVideo = "file:///data/videos/video_1700000000000.mp4"%string /\
    thumbnailUri newVideo =
      Some "file:///data/thumbnails/1700000000001.jpg"%string /\
    "file:///data/thumbnails/1700000000001.jpg"%string <> ""%string.
Proof.
  eapply (proj2 C1_create_prepends_record env_ok initialWorld
                "file:///in.mov" "Clip" "");
    [vm_compute; reflexivity | vm_compute; reflexivity].
Defined.

(** Scenario D: the record "2" of a three-record store is edited to the
    range 1..4 with a new title. *)
Lemma C2_scenario_D :
  let w' := exec (useVideoOperations.editVideo env_ok "2" (uri v2) 1%Z 4%Z
                                               "New title" "New text")
                 (world_of [v1; v2; v3]) in
  let updatedVideo :=
    mkVideoItem "2" "file:///data/videos/video_edit_1700000000000.mp4"
                "New title" "New text" 3%Z 200%Z
                (Some "file:///data/thumbnails/1700000000001.jpg"%string) in
  status (editVideoMutation w') = Success /\
  videos w' = [v1] ++ updatedVideo :: [v3].
Proof.
  intros w' updatedVideo.
  edestruct (C2_edit_replaces_record env_ok (world_of [v1; v2; v3]) "2"
               (uri v2) 1%Z 4%Z "New title" "New text" v2)
    as [_ [Hs [_ [_ [_ Hrep]]]]];
    [vm_compute; reflexivity ..|].
  split; [exact Hs|].
  apply (Hrep [v1] [v3]); [reflexivity | other_ids].
Defined.

(** Scenario C: the id "9" is not in the store. *)
Lemma C4_scenario_C :
  let w := world_of [v1; v2] in
  let w' := exec (useVideoOperations.editVideo env_ok "9" "file:///in.mov"
                                               0%Z 5%Z "Clip" "") w in
  status (editVideoMutation w') = Failed /\
  mutationError (editVideoMutation w') = Some (Error "Video not found") /\
  trace w' = trace w /\
  ticks w' = ticks w /\
  videos w' = videos w /\
  useVideoOperations.hook_error w' =
    Some "An error occurred during video editing"%string.
Proof.
  intros w w'.
  apply (C4_edit_not_found env_ok w "9" "file:///in.mov" 0%Z 5%Z "Clip" "").
  other_ids.
Defined.

(** A create whose trim fails, and an edit whose thumbnail call throws. *)
Lemma C5_failures :
  (let w' := exec (useVideoOperations.cropVideo env_trim_fails "file:///in.mov"
                                                0%Z 5%Z "Clip" "")
                  (world_of [v1]) in
   mutationError (cropVideoMutation w') =
     Some (Error "Video trimming process failed") /\
   videos w' = [v1]) /\
  (let w' := exec (useVideoOperations.editVideo env_thumbnail_fails "2" (uri v2)
                                                1%Z 4%Z "New title" "")
                  (world_of [v1; v2]) in
   mutationError (editVideoMutation w') = Some (Error "ffmpeg crashed") /\
   videos w' = [v1; v2]).
Proof.
  split; intros w'.
  - edestruct (proj1 (C5_gateway_failure_keeps_store env_trim_fails
                        (world_of [v1]) "file:///in.mov" 0%Z 5%Z "Clip" "")
                     (Error "Video trimming process failed"))
      as [_ [He [_ Hv]]].
    + left. eexists. vm_compute. reflexivity.
    + split; [exact He | exact Hv].
  - edestruct (proj2 (C5_gateway_failure_keeps_store env_thumbnail_fails
                        (world_of [v1; v2]) (uri v2) 1%Z 4%Z "New title" "")
                     "2" v2)
      as [_ [He [_ Hv]]].
    + vm_compute. reflexivity.
    + right. do 3 eexists.
      split; [vm_compute; reflexivity | vm_compute; reflexivity].
    + split; [exact He | exact Hv].
Defined.

(** [update]: a hit in the middle of the collection, and a miss. *)
Lemma C7_update_examples :
  videos (exec (videoStore.updateVideo v1') (world_of [v2; v1; v3]))
  = [v2] ++ v1' :: [v3] /\
  videoStore.updateVideo v1' (world_of [v2; v3])
  = (Normal tt, world_of [v2; v3]).
Proof.
  split.
  - apply (proj1 (C7_update_in_place (world_of [v2; v1; v3]) v1')
                 [v2] v1 [v3]);
      [reflexivity | reflexivity | other_ids].
  - apply (proj2 (C7_update_in_place (world_of [v2; v3]) v1')).
    other_ids.
Defined.

(** [remove]: a hit in the middle of the collection, and a miss. *)
Lemma C8_remove_examples :
  videos (exec (videoStore.removeVideo "2") (world_of [v1; v2; v3]))
  = [v1] ++ [v3] /\
  videoStore.removeVideo "9" (world_of [v1; v2])
  = (Normal tt, world_of [v1; v2]).
Proof.
  split.
  - apply (proj1 (proj2 (C8_remove (world_of [v1; v2; v3]) "2"))
                 [v1] v2 [v3]);
      [reflexivity | reflexivity | other_ids].
  - apply (proj1 (proj2 (proj2 (C8_remove (world_of [v1; v2]) "9")))).
    other_ids.
Defined.

(** [getById]: a present id and an absent one. *)
Lemma C9_getVideoById_examples :
  (exists r, eval (videoStore.getVideoById "2") (world_of [v1; v2])
             = Normal (Some r)) /\
  eval (videoStore.getVideoById "9") (world_of [v1; v2]) = Normal None.
Proof.
  split.
  - apply (proj1 (proj2 (proj2 (C9_getVideoById (world_of [v1; v2]) "2")))).
    exists v2. split; [right; left; reflexivity | reflexivity].
  - apply (proj1 (proj2 (proj2 (proj2
             (C9_getVideoById (world_of [v1; v2]) "9"))))).
    other_ids.
Defined.

(** Two records with the id "1": [update] rewrites the older one as well,
    and [getById] answers with the newer one. *)
Lemma C10_duplicate_examples :
  nth_error (videos (exec (videoStore.updateVideo (video "1" 999%Z))
                          (world_of [v1'; v2; v1]))) 2
  = Some (if videoStore.same_id (id (video "1" 999%Z)) v1
          then video "1" 999%Z else v1) /\
  eval (videoStore.getVideoById "1") (world_of [v2; v1'; v1])
  = Normal (Some v1').
Proof.
  split.
  - apply (proj1 (proj2 (C10_ids_not_unique (world_of [v1'; v2; v1])))).
    reflexivity.
  - apply (proj1 (proj2 (proj2 (proj2
             (C10_ids_not_unique (world_of [v2; v1'; v1])))))
             "1" [v2] v1' [v1]);
      [reflexivity | reflexivity | other_ids].
Defined.

End Instances.

(** * Further properties *)

(** ** The store: invariants and how the operations compose *)

Section StoreLaws.
Import videoStore.
Context {num : Type}.
Implicit Types (w : World num) (r x y : VideoItem num) (l : list (VideoItem num)).

Lemma replace_keeps_ids r l :
  map (@id num) (map (fun v => if same_id (id r) v then r else v) l)
  = map (@id num) l.
Proof.
  induction l as [|a l IH]; simpl; [reflexivity|].
  rewrite IH. f_equal.
  destruct (same_id (id r) a) eqn:E; [|reflexivity].
  apply same_id_true in E. now symmetry.
Qed.

Lemma filter_keeps_NoDup_ids (p : VideoItem num -> bool) l :
  NoDup (map (@id num) l) -> NoDup (map (@id num) (filter p l)).
Proof.
  induction l as [|a l IH]; simpl; intros H; [constructor|].
  inversion H as [|? ? Hnotin Hrest]; subst.
  destruct (p a); simpl; [|now apply IH].
  constructor; [|now apply IH].
  intros Hin. apply Hnotin.
  apply in_map_iff in Hin as [y [Hy Hin]].
  apply in_map_iff. exists y. split; [assumption|].
  now apply filter_In in Hin.
Qed.

Lemma find_replace_other r j l :
  id r <> j ->
  find (same_id j) (map (fun v => if same_id (id r) v then r else v) l)
  = find (same_id j) l.
Proof.
  intros Hne. induction l as [|a l IH]; simpl; [reflexivity|].
  destruct (same_id (id r) a) eqn:E.
  - apply same_id_true in E.
    assert (Hr : same_id j r = false) by now apply same_id_false.
    assert (Ha : same_id j a = false)
      by (apply same_id_false; now rewrite E).
    now rewrite Hr, Ha.
  - now rewrite IH.
Qed.

Lemma find_filter_other i j l :
  i <> j ->
  find (same_id j) (filter (fun v => negb (same_id i v)) l)
  = find (same_id j) l.
Proof.
  intros Hne. induction l as [|a l IH]; simpl; [reflexivity|].
  destruct (same_id i a) eqn:E; simpl.
  - apply same_id_true in E.
    assert (Ha : same_id j a = false)
      by (apply same_id_false; now rewrite E).
    now rewrite Ha.
  - now rewrite IH.
Qed.

Lemma find_replace_same r l :
  find (same_id (id r)) (map (fun v => if same_id (id r) v then r else v) l)
  = if existsb (same_id (id r)) l then Some r else None.
Proof.
  assert (Hr : same_id (id r) r = true) by now apply same_id_true.
  induction l as [|a l IH]; simpl; [reflexivity|].
  destruct (same_id (id r) a) eqn:E; simpl.
  - now rewrite Hr.
  - now rewrite E.
Qed.

Lemma replace_twice r1 r2 l :
  id r1 = id r2 ->
  map (fun v => if same_id (id r2) v then r2 else v)
      (map (fun v => if same_id (id r1) v then r1 else v) l)
  = map (fun v => if same_id (id r2) v then r2 else v) l.
Proof.
  intros Hid. rewrite map_map. apply map_ext. intros a. rewrite Hid.
  destruct (same_id (id r2) a) eqn:E; [|now rewrite E].
  assert (Hr : same_id (id r2) r1 = true) by now apply same_id_true.
  now rewrite Hr.
Qed.

Lemma filter_twice i j l :
  filter (fun v => negb (same_id i v)) (filter (fun v => negb (same_id j v)) l)
  = filter (fun v => negb (same_id j v)) (filter (fun v => negb (same_id i v)) l).
Proof.
  induction l as [|a l IH]; simpl; [reflexivity|].
  destruct (same_id j a) eqn:Ej, (same_id i a) eqn:Ei; simpl;
    rewrite ?Ej, ?Ei; simpl; now rewrite IH.
Qed.

Lemma filter_length_count i l :
  length (filter (fun v => negb (same_id i v)) l) + count_id i l = length l.
Proof.
  unfold count_id. induction l as [|a l IH]; simpl; [reflexivity|].
  destruct (same_id i a); simpl; lia.
Qed.

(** X1.  [update] never changes the sequence of ids of the collection.  A
    collection whose ids are pairwise distinct keeps them distinct through
    [update] and [remove], and through [add r] when no record carries the id
    of [r]; [add r] on a collection that holds the id of [r] breaks
    distinctness. *)
Theorem store_ids_stay_unique w :
  (forall r, map (@id num) (videos (exec (updateVideo r) w))
             = map (@id num) (videos w)) /\
  (NoDup (map (@id num) (videos w)) ->
   (forall r, NoDup (map (@id num) (videos (exec (updateVideo r) w)))) /\
   (forall i, NoDup (map (@id num) (videos (exec (removeVideo i) w)))) /\
   (forall r, (forall y, In y (videos w) -> id y <> id r) ->
              NoDup (map (@id num) (videos (exec (addVideo r) w))))) /\
  (forall r x, In x (videos w) -> id x = id r ->
               ~ NoDup (map (@id num) (videos (exec (addVideo r) w)))).
Proof.
  unfold exec. split; [|split].
  - intros r. rewrite run_updateVideo. simpl. apply replace_keeps_ids.
  - intros Hnd. split; [|split].
    + intros r. rewrite run_updateVideo. simpl.
      now rewrite replace_keeps_ids.
    + intros i. rewrite run_removeVideo. simpl.
      now apply filter_keeps_NoDup_ids.
    + intros r Hfresh. rewrite run_addVideo. simpl.
      constructor; [|assumption].
      intros Hin. apply in_map_iff in Hin as [y [Hy Hin]].
      now apply (Hfresh y Hin).
  - intros r x Hin Hx. rewrite run_addVideo. simpl. intros Hnd.
    inversion Hnd as [|? ? Hnotin _]; subst.
    apply Hnotin. apply in_map_iff. now exists x.
Qed.

(** X2.  [add r] followed by [remove (id r)] gives back the world it
    started from when no record carried the id of [r]; in general it also
    drops the older records with that id. *)
Theorem add_then_remove w r :
  videos (exec (removeVideo (id r)) (exec (addVideo r) w))
  = videos (exec (removeVideo (id r)) w) /\
  ((forall y, In y (videos w) -> id y <> id r) ->
   exec (removeVideo (id r)) (exec (addVideo r) w) = w).
Proof.
  unfold exec. rewrite run_addVideo, !run_removeVideo. simpl.
  assert (Hr : same_id (id r) r = true) by now apply same_id_true.
  rewrite Hr. simpl. split; [reflexivity|].
  intros Hfresh. rewrite (filter_remove_miss (id r) _ Hfresh).
  now destruct w.
Qed.

(** X3.  Looking up an id [j] is not affected by an [add] or [update] of
    a record with another id, nor by the [remove] of another id. *)
Theorem lookup_of_other_id w j :
  (forall r, id r <> j ->
     eval (getVideoById j) (exec (addVideo r) w) = eval (getVideoById j) w) /\
  (forall r, id r <> j ->
     eval (getVideoById j) (exec (updateVideo r) w) = eval (getVideoById j) w) /\
  (forall i, i <> j ->
     eval (getVideoById j) (exec (removeVideo i) w) = eval (getVideoById j) w).
Proof.
  unfold exec, eval. split; [|split].
  - intros r Hne. rewrite run_addVideo, !run_getVideoById. simpl.
    assert (Hr : same_id j r = false) by now apply same_id_false.
    now rewrite Hr.
  - intros r Hne. rewrite run_updateVideo, !run_getVideoById. simpl.
    now rewrite find_replace_other.
  - intros i Hne. rewrite run_removeVideo, !run_getVideoById. simpl.
    now rewrite find_filter_other.
Qed.

(** X4.  After [update r], a lookup of the id of [r] answers [r] when some
    record carried that id before, and "not found" when none did: [update]
    never inserts. *)
Theorem update_then_lookup w r :
  ((exists x, In x (videos w) /\ id x = id r) ->
   eval (getVideoById (id r)) (exec (updateVideo r) w) = Normal (Some r)) /\
  ((forall y, In y (videos w) -> id y <> id r) ->
   eval (getVideoById (id r)) (exec (updateVideo r) w) = Normal None).
Proof.
  unfold exec, eval. rewrite run_updateVideo, run_getVideoById. simpl.
  rewrite find_replace_same. split.
  - intros [x [Hin Hx]].
    assert (E : existsb (same_id (id r)) (videos w) = true).
    { apply existsb_exists. exists x. split; [assumption|].
      now apply same_id_true. }
    now rewrite E.
  - intros Hno.
    destruct (existsb (same_id (id r)) (videos w)) eqn:E; [|reflexivity].
    apply existsb_exists in E as [x [Hin Hx]].
    apply same_id_true in Hx. now apply Hno in Hin.
Qed.

(** X5.  Of two [update]s with the same id the later one wins, so an
    [update] done twice is the same as done once; [remove] done twice is the
    same as done once, and two [remove]s can be done in either order. *)
Theorem update_and_remove_repeat w :
  (forall r1 r2, id r1 = id r2 ->
     exec (updateVideo r2) (exec (updateVideo r1) w) = exec (updateVideo r2) w) /\
  (forall i, exec (removeVideo i) (exec (removeVideo i) w)
             = exec (removeVideo i) w) /\
  (forall i j, exec (removeVideo i) (exec (removeVideo j) w)
               = exec (removeVideo j) (exec (removeVideo i) w)).
Proof.
  unfold exec. split; [|split].
  - intros r1 r2 Hid. rewrite !run_updateVideo. simpl.
    rewrite (replace_twice r1 r2 _ Hid). reflexivity.
  - intros i. rewrite !run_removeVideo. simpl.
    rewrite filter_remove_miss; [reflexivity|].
    intros y Hy. apply filter_In in Hy as [_ Hy].
    apply same_id_false. now apply negb_true_iff.
  - intros i j. rewrite !run_removeVideo. simpl.
    now rewrite filter_twice.
Qed.

(** X6.  [remove i] shortens the collection by exactly the number of
    records that carried the id [i]. *)
Theorem remove_length w i :
  length (videos (exec (removeVideo i) w)) + count_id i (videos w)
  = length (videos w).
Proof.
  unfold exec. rewrite run_removeVideo. simpl. apply filter_length_count.
Qed.

End StoreLaws.

(** ** The gateway: which external calls are made, and what decides the
       outcome *)

Section ServiceLaws.
Context {num : Type} {N : JSNumber num}.
Variable env : Env num.
Implicit Types w : World num.






(** X9.  The thumbnail call reads the clock exactly once, whatever happens
    afterwards, and the path it returns is
    [documentDirectory/thumbnails/<that reading>.jpg]: it does not depend on
    the video.  Two calls that read the same clock value therefore return the
    same path, also for different videos. *)
Theorem generateThumbnail_path_from_clock videoUri1 videoUri2 w1 w2 r1 w1' :
  videoService.generateThumbnail env videoUri1 w1 = (r1, w1') ->
  ticks w1' = S (ticks w1) /\
  (forall thumb1,
      r1 = Normal thumb1 ->
      thumb1 = ((documentDirectory env ++ "thumbnails/")
                  ++ num_toString (now env (ticks w1)) ++ ".jpg")%string /\
      forall thumb2 w2',
        videoService.generateThumbnail env videoUri2 w2 = (Normal thumb2, w2') ->
        now env (ticks w2) = now env (ticks w1) ->
        thumb2 = thumb1).
Proof.
  intros H1. apply generateThumbnail_spec in H1 as [F1 P1].
  split; [now rewrite F1|].
  intros thumb1 ->. split; [now apply P1|].
  intros thumb2 w2' H2 Hclock.
  apply generateThumbnail_spec in H2 as [_ P2].
  rewrite (P1 thumb1 eq_refl), (P2 thumb2 eq_refl). now rewrite Hclock.
Qed.


End ServiceLaws.

(** ** The workflows: every way they can end *)

Section WorkflowLaws.
Import useVideoOperations.
Context {num : Type} {N : JSNumber num}.
Variable env : Env num.
Implicit Types w : World num.

(** Everything but the trace (and, for the thumbnail, one clock reading) is
    left alone by the gateway calls. *)
Lemma cropVideo_frame params w r w' :
  videoService.cropVideo env params w = (r, w') ->
  videos w' = videos w /\ ticks w' = ticks w /\
  isLoading w' = isLoading w /\ error w' = error w /\
  cropVideoMutation w' = cropVideoMutation w /\
  editVideoMutation w' = editVideoMutation w /\
  invalidations w' = invalidations w /\ navigated w' = navigated w.
Proof.
  intros H. apply cropVideo_spec in H as [H _]. rewrite H.
  repeat split.
Qed.

Lemma generateThumbnail_frame videoUri w r w' :
  videoService.generateThumbnail env videoUri w = (r, w') ->
  videos w' = videos w /\ ticks w' = S (ticks w) /\
  isLoading w' = isLoading w /\ error w' = error w /\
  cropVideoMutation w' = cropVideoMutation w /\
  editVideoMutation w' = editVideoMutation w /\
  invalidations w' = invalidations w /\ navigated w' = navigated w.
Proof.
  intros H. apply generateThumbnail_spec in H as [H _]. rewrite H.
  repeat split.
Qed.

Ltac run_mutate :=
  cbv [cropVideo editVideo mutate invalidateQueries exec eval fst snd];
  cbn [ticks videos trace isLoading error invalidations navigated
       with_ticks with_error with_isLoading
       with_videos with_trace with_cropVideoMutation with_editVideoMutation
       with_invalidations cropVideoMutation editVideoMutation status data
       mutationError].

Ltac run_entry H :=
  cbv [exec bind setIsLoading setError Date_now snd] in H;
  cbn [ticks videos trace isLoading error invalidations navigated
       with_ticks with_error with_isLoading
       with_videos with_trace with_cropVideoMutation with_editVideoMutation
       with_invalidations cropVideoMutation editVideoMutation] in H.

Ltac frames H1 :=
  let V := fresh "V" in let T := fresh "T" in let Er := fresh "Er" in
  let E := fresh "E" in let C := fresh "C" in let I := fresh "I" in
  let Nv := fresh "Nv" in
  apply cropVideo_frame in H1 as (V & T & _ & Er & C & E & I & Nv);
  run_entry V; run_entry T; run_entry Er; run_entry E; run_entry C;
  run_entry I; run_entry Nv.

Ltac frames2 H2 :=
  let V := fresh "V" in let T := fresh "T" in let Er := fresh "Er" in
  let E := fresh "E" in let C := fresh "C" in let I := fresh "I" in
  let Nv := fresh "Nv" in
  apply generateThumbnail_frame in H2 as (V & T & _ & Er & C & E & I & Nv).

Ltac use_frames :=
  repeat match goal with
         | H : _ ?w2 = _ ?w |- _ => rewrite H; clear H
         | H : _ ?w2 = S (_ ?w) |- _ => rewrite H; clear H
         | H : _ ?w2 = None |- _ => rewrite H; clear H
         | H : _ ?w2 = pendingMutation |- _ => rewrite H; clear H
         end.

(** The two ways the create workflow can end. *)
Lemma create_outcome w videoUri a b title desc :
  let w' := exec (cropVideo env videoUri a b title desc) w in
  eval (cropVideo env videoUri a b title desc) w = Normal tt /\
  isLoading w' = false /\
  editVideoMutation w' = editVideoMutation w /\
  navigated w' = navigated w /\
  ((exists croppedUri thumb,
       let newVideo :=
         mkVideoItem (num_toString (now env (S (S (ticks w))))) croppedUri
                     title desc (num_sub b a)
                     (now env (S (S (S (ticks w))))) (Some thumb) in
       cropVideoMutation w' =
         {| status := Success; data := Some newVideo; mutationError := None |} /\
       videos w' = newVideo :: videos w /\
       error w' = None /\
       invalidations w' = S (invalidations w)) \/
   (exists e,
       cropVideoMutation w' =
         {| status := Failed; data := None; mutationError := Some e |} /\
       videos w' = videos w /\
       error w' = Some "An error occurred during video processing"%string /\
       invalidations w' = invalidations w)).
Proof.
  intros w'.
  destruct (videoService.cropVideo env
              (mkCropParams videoUri a b
                            ("video_" ++ num_toString (now env (ticks w))))
              (exec (setIsLoading true ;; setError None ;; Date_now env)
                    (with_cropVideoMutation pendingMutation w)))
    as [[croppedUri|e] w2] eqn:H1.
  - destruct (videoService.generateThumbnail env croppedUri w2)
      as [[thumb|e] w3] eqn:H2.
    + pose proof (create_fn_success env
                    (with_cropVideoMutation pendingMutation w)
                    videoUri a b title desc croppedUri thumb w2 w3 H1 H2)
        as Hrun.
      frames H1. frames2 H2.
      subst w'. revert Hrun. run_mutate. intros Hrun. rewrite Hrun. run_mutate.
      clear Hrun. use_frames.
      repeat split. left. exists croppedUri, thumb. repeat split.
    + pose proof (create_fn_thumbnail_fails env
                    (with_cropVideoMutation pendingMutation w)
                    videoUri a b title desc croppedUri e w2 w3 H1 H2)
        as Hrun.
      frames H1. frames2 H2.
      subst w'. revert Hrun. run_mutate. intros Hrun. rewrite Hrun. run_mutate.
      clear Hrun. use_frames.
      repeat split. right. exists e. repeat split.
  - pose proof (create_fn_trim_fails env
                  (with_cropVideoMutation pendingMutation w)
                  videoUri a b title desc e w2 H1)
      as Hrun.
    frames H1.
    subst w'. revert Hrun. run_mutate. intros Hrun. rewrite Hrun. run_mutate.
    clear Hrun. use_frames.
    repeat split. right. exists e. repeat split.
Qed.

(** The three ways the edit workflow can end. *)
Lemma edit_outcome w videoId videoUri a b title desc :
  let w' := exec (editVideo env videoId videoUri a b title desc) w in
  eval (editVideo env videoId videoUri a b title desc) w = Normal tt /\
  isLoading w' = false /\
  cropVideoMutation w' = cropVideoMutation w /\
  navigated w' = navigated w /\
  ((exists existing croppedUri thumb,
       let updatedVideo :=
         mkVideoItem (id existing) croppedUri title desc (num_sub b a)
                     (createdAt existing) (Some thumb) in
       find (videoStore.same_id videoId) (videos w) = Some existing /\
       editVideoMutation w' =
         {| status := Success; data := Some updatedVideo;
            mutationError := None |} /\
       videos w' =
         map (fun v => if videoStore.same_id (id existing) v
                       then updatedVideo else v) (videos w) /\
       error w' = None /\
       invalidations w' = S (invalidations w)) \/
   (find (videoStore.same_id videoId) (videos w) = None /\
    editVideoMutation w' =
      {| status := Failed; data := None;
         mutationError := Some (Error "Video not found") |} /\
    videos w' = videos w /\ trace w' = trace w /\ ticks w' = ticks w /\
    error w' = Some "An error occurred during video editing"%string /\
    invalidations w' = invalidations w) \/
   (exists existing e,
       find (videoStore.same_id videoId) (videos w) = Some existing /\
       editVideoMutation w' =
         {| status := Failed; data := None; mutationError := Some e |} /\
       videos w' = videos w /\
       error w' = Some "An error occurred during video editing"%string /\
       invalidations w' = invalidations w)).
Proof.
  intros w'.
  destruct (find (videoStore.same_id videoId) (videos w))
    as [existing|] eqn:Hfind.
  - destruct (videoService.cropVideo env
                (mkCropParams videoUri a b
                              ("video_edit_" ++ num_toString (now env (ticks w))))
                (exec (setIsLoading true ;; setError None ;; Date_now env)
                      (with_editVideoMutation pendingMutation w)))
      as [[croppedUri|e] w2] eqn:H1.
    + destruct (videoService.generateThumbnail env croppedUri w2)
        as [[thumb|e] w3] eqn:H2.
      * pose proof (edit_fn_success env
                      (with_editVideoMutation pendingMutation w)
                      videoId videoUri a b title desc existing croppedUri
                      thumb w2 w3 Hfind H1 H2) as Hrun.
        frames H1. frames2 H2.
        subst w'. revert Hrun. run_mutate. intros Hrun. rewrite Hrun.
        run_mutate. clear Hrun. use_frames.
        repeat split. left. exists existing, croppedUri, thumb. repeat split.
      * pose proof (edit_fn_thumbnail_fails env
                      (with_editVideoMutation pendingMutation w)
                      videoId videoUri a b title desc existing croppedUri e
                      w2 w3 Hfind H1 H2) as Hrun.
        frames H1. frames2 H2.
        subst w'. revert Hrun. run_mutate. intros Hrun. rewrite Hrun.
        run_mutate. clear Hrun. use_frames.
        repeat split. right. right. exists existing, e. repeat split.
    + pose proof (edit_fn_trim_fails env
                    (with_editVideoMutation pendingMutation w)
                    videoId videoUri a b title desc existing e w2 Hfind H1)
        as Hrun.
      frames H1.
      subst w'. revert Hrun. run_mutate. intros Hrun. rewrite Hrun.
      run_mutate. clear Hrun. use_frames.
      repeat split. right. right. exists existing, e. repeat split.
  - pose proof (edit_fn_not_found env
                  (with_editVideoMutation pendingMutation w)
                  videoId videoUri a b title desc Hfind) as Hrun.
    subst w'. revert Hrun. run_mutate. intros Hrun. rewrite Hrun.
    run_mutate. repeat split. right. left. repeat split.
Qed.

(** X11.  Whatever the file system, FFmpeg and the clock do, a create
    workflow does not throw to its caller, ends with the loading flag off and
    the edit mutation untouched, and ends in one of two ways: in SUCCESS, with
    exactly one record put in front of the collection, carrying the title, the
    description, the duration [b - a] and a thumbnail; or in FAILED with an
    error, no result and the collection as it was. *)
Theorem create_all_or_nothing w videoUri a b title desc :
  let w' := exec (cropVideo env videoUri a b title desc) w in
  eval (cropVideo env videoUri a b title desc) w = Normal tt /\
  isLoading w' = false /\
  editVideoMutation w' = editVideoMutation w /\
  ((status (cropVideoMutation w') = Success /\
    mutationError (cropVideoMutation w') = None /\
    exists v,
      data (cropVideoMutation w') = Some v /\
      videos w' = v :: videos w /\
      name v = title /\ description v = desc /\
      duration v = num_sub b a /\ thumbnailUri v <> None) \/
   (status (cropVideoMutation w') = Failed /\
    data (cropVideoMutation w') = None /\
    (exists e, mutationError (cropVideoMutation w') = Some e) /\
    videos w' = videos w)).
Proof.
  intros w'.
  destruct (create_outcome w videoUri a b title desc)
    as (Hev & Hl & He & _ & [(u & t & Hm & Hv & _) | (e & Hm & Hv & _)]);
    fold w' in Hl, He, Hm, Hv.
  - repeat split; try assumption. left. rewrite Hm. simpl.
    repeat split. eexists. repeat split; [exact Hv|]. discriminate.
  - repeat split; try assumption. right. rewrite Hm. simpl.
    repeat split; [now exists e | exact Hv].
Qed.

(** X12.  The id of a created record is the printed third clock reading of
    the workflow and its [createdAt] the fourth; the id is not compared with
    the ids in the store, so when a record with that id is already there
    (another create in the same millisecond), the ids of the collection are
    no longer distinct. *)
Theorem create_id_from_clock w videoUri a b title desc :
  let w' := exec (cropVideo env videoUri a b title desc) w in
  status (cropVideoMutation w') = Success ->
  exists v,
    videos w' = v :: videos w /\
    id v = num_toString (now env (S (S (ticks w)))) /\
    createdAt v = now env (S (S (S (ticks w)))) /\
    (forall x, In x (videos w) -> id x = id v ->
               ~ NoDup (map (@id num) (videos w'))).
Proof.
  intros w' Hs.
  destruct (create_outcome w videoUri a b title desc)
    as (_ & _ & _ & _ & [(u & t & Hm & Hv & _) | (e & Hm & _)]);
    fold w' in Hm; [|rewrite Hm in Hs; discriminate].
  fold w' in Hv. eexists. split; [exact Hv|]. repeat split.
  intros x Hin Hx. rewrite Hv. simpl. intros Hnd.
  inversion Hnd as [|? ? Hnotin _]; subst.
  apply Hnotin. apply in_map_iff. exists x. split; assumption.
Qed.

(** X13.  What the hook shows after a workflow.  After a failed create or
    edit the displayed error is the hook's fixed message for that workflow,
    never the message of the error that was thrown.  After a successful create
    the displayed error is whatever error the edit mutation still holds (and
    the other way round): a success does not clear the other workflow's
    failure.  The loading flag shown is then just the other mutation being
    pending. *)
Theorem workflow_displayed_state w videoId videoUri a b title desc :
  (let w' := exec (cropVideo env videoUri a b title desc) w in
   (status (cropVideoMutation w') = Failed ->
    hook_error w' = Some "An error occurred during video processing"%string) /\
   (status (cropVideoMutation w') = Success ->
    hook_error w' = option_map message (mutationError (editVideoMutation w))) /\
   hook_isLoading w' = isPending (editVideoMutation w)) /\
  (let w' := exec (editVideo env videoId videoUri a b title desc) w in
   (status (editVideoMutation w') = Failed ->
    hook_error w' = Some "An error occurred during video editing"%string) /\
   (status (editVideoMutation w') = Success ->
    hook_error w' =
    js_or (option_map message (mutationError (cropVideoMutation w))) None) /\
   hook_isLoading w' = isPending (cropVideoMutation w)).
Proof.
  split; intros w'.
  - destruct (create_outcome w videoUri a b title desc)
      as (_ & Hl & He & _ &
          [(u & t & Hm & _ & Her & _) | (e & Hm & _ & Her & _)]);
      fold w' in Hl, He, Hm, Her;
      unfold hook_error, hook_isLoading, isPending;
      rewrite Hl, He, Hm, Her; simpl;
      (split; [|split]); try reflexivity; try discriminate;
        intros _; now destruct (status (editVideoMutation w)).
  - destruct (edit_outcome w videoId videoUri a b title desc)
      as (_ & Hl & Hc & _ &
          [(x & u & t & _ & Hm & _ & Her & _)
          | [(_ & Hm & _ & _ & _ & Her & _) | (x & e & _ & Hm & _ & Her & _)]]);
      fold w' in Hl, Hc, Hm, Her;
      unfold hook_error, hook_isLoading, isPending;
      rewrite Hl, Hc, Hm, Her; simpl;
      (split; [|split]); try reflexivity; try discriminate;
        try (intros _; reflexivity);
        now destruct (status (cropVideoMutation w)).
Qed.

(** X14.  Whatever happens, an edit workflow does not throw to its caller,
    ends with the loading flag off and in SUCCESS or FAILED, and leaves the
    sequence of ids of the collection (so also its length and order) as it
    was; it ends in SUCCESS only when the store resolved the id, and then its
    result carries that id. *)
Theorem edit_keeps_ids w videoId videoUri a b title desc :
  let w' := exec (editVideo env videoId videoUri a b title desc) w in
  eval (editVideo env videoId videoUri a b title desc) w = Normal tt /\
  isLoading w' = false /\
  map (@id num) (videos w') = map (@id num) (videos w) /\
  length (videos w') = length (videos w) /\
  (status (editVideoMutation w') = Failed \/
   status (editVideoMutation w') = Success /\
   exists existing updatedVideo,
     eval (videoStore.getVideoById videoId) w = Normal (Some existing) /\
     data (editVideoMutation w') = Some updatedVideo /\
     id updatedVideo = videoId /\
     createdAt updatedVideo = createdAt existing).
Proof.
  intros w'.
  destruct (edit_outcome w videoId videoUri a b title desc)
    as (Hev & Hl & _ & _ &
        [(x & u & t & Hf & Hm & Hv & _)
        | [(_ & Hm & Hv & _) | (x & e & _ & Hm & Hv & _)]]);
    fold w' in Hl, Hm, Hv; rewrite Hv, Hm; simpl.
  - assert (Hid : id x = videoId).
    { apply find_some in Hf as [_ Hf]. now apply same_id_true. }
    repeat split; try assumption.
    + apply (replace_keeps_ids
               (mkVideoItem (id x) u title desc (num_sub b a) (createdAt x)
                            (Some t))).
    + apply length_map.
    + right. split; [reflexivity|]. eexists. eexists.
      unfold eval. rewrite run_getVideoById. simpl. rewrite Hf.
      repeat split. exact Hid.
  - repeat split; try assumption. now left.
  - repeat split; try assumption. now left.
Qed.

(** X15.  When the trim call of a create or of an edit workflow throws, the
    workflow stops there: the thumbnail call is not made and the clock is not
    read again, so the trace and the clock are as the trim call left them. *)
Theorem failed_trim_skips_thumbnail w videoUri a b title desc e w2 :
  (let w1 := exec (setIsLoading true ;; setError None ;; Date_now env)
                  (with_cropVideoMutation pendingMutation w) in
   videoService.cropVideo env
     (mkCropParams videoUri a b ("video_" ++ num_toString (now env (ticks w))))
     w1 = (Throw e, w2) ->
   let w' := exec (cropVideo env videoUri a b title desc) w in
   trace w' = trace w2 /\ ticks w' = S (ticks w)) /\
  (forall videoId existing,
     eval (videoStore.getVideoById videoId) w = Normal (Some existing) ->
     let w1 := exec (setIsLoading true ;; setError None ;; Date_now env)
                    (with_editVideoMutation pendingMutation w) in
     videoService.cropVideo env
       (mkCropParams videoUri a b
                     ("video_edit_" ++ num_toString (now env (ticks w))))
       w1 = (Throw e, w2) ->
     let w' := exec (editVideo env videoId videoUri a b title desc) w in
     trace w' = trace w2 /\ ticks w' = S (ticks w)).
Proof.
  split.
  - intros w1 H1 w'.
    pose proof (create_fn_trim_fails env
                  (with_cropVideoMutation pendingMutation w)
                  videoUri a b title desc e w2 H1) as Hrun.
    frames H1.
    subst w'. revert Hrun. run_mutate. intros Hrun. rewrite Hrun.
    run_mutate. split; [reflexivity | assumption].
  - intros videoId existing Hget w1 H1 w'.
    apply getVideoById_find in Hget.
    pose proof (edit_fn_trim_fails env
                  (with_editVideoMutation pendingMutation w)
                  videoId videoUri a b title desc existing e w2 Hget H1)
      as Hrun.
    frames H1.
    subst w'. revert Hrun. run_mutate. intros Hrun. rewrite Hrun.
    run_mutate. split; [reflexivity | assumption].
Qed.

End WorkflowLaws.

(** ** Picking a video *)

Section PickerLaws.
Import useVideoOperations.
Context {num : Type}.
Implicit Types w : World num.

Ltac run_picker :=
  cbv [pickVideo awaited try_catch bind setError ret throw negb eval exec
       fst snd canceled assets].

(** X16.  [pickVideo] never throws.  It returns a video exactly when the
    permission was granted and the picker resolved, not cancelled, with at
    least one asset, and then it returns the first asset's uri and changes
    nothing: an error message set earlier stays. *)
Theorem pickVideo_returns_first_asset permission launch w :
  (exists r, eval (pickVideo permission launch) w = Normal r) /\
  (forall uri,
      eval (pickVideo permission launch) w = Normal (Some uri) <->
      permission = Resolves true /\
      exists rest,
        launch = Resolves (mkPickerResult false (Some (uri :: rest)))) /\
  (forall uri,
      eval (pickVideo permission launch) w = Normal (Some uri) ->
      exec (pickVideo permission launch) w = w).
Proof.
  destruct permission as [[|]|e];
    [destruct launch as [[[|] [[|u rest]|]]|e]|..];
    run_picker;
    (split; [eexists; reflexivity|]); split;
    try (intros uri; split;
         [ intros H; inversion H; subst; split; [reflexivity|];
           eexists; reflexivity
         | intros [Hp [rest' Hl]]; inversion Hp; inversion Hl; reflexivity ]);
    try (intros uri H; inversion H; reflexivity);
    try (intros uri; split;
         [ intros H; inversion H
         | intros [Hp [rest' Hl]]; inversion Hp; inversion Hl ]).
Qed.

(** X17.  [pickVideo] touches nothing but the hook's [error] cell, and sets
    it only to one of its two messages.  When the permission is refused the
    picker's answer plays no part, the result is "no video" and the message is
    the permission one; when either call is rejected the result is "no video"
    with the selection message; when the user cancels, or no asset comes back,
    the result is "no video" and nothing changes at all. *)
Theorem pickVideo_effects permission launch w :
  (exec (pickVideo permission launch) w = w \/
   exec (pickVideo permission launch) w =
     with_error (Some "Permission to access videos was denied"%string) w \/
   exec (pickVideo permission launch) w =
     with_error (Some "An error occurred while selecting video"%string) w) /\
  (forall launch',
      pickVideo (Resolves false) launch w =
      pickVideo (Resolves false) launch' w /\
      pickVideo (Resolves false) launch w =
      (Normal None,
       with_error (Some "Permission to access videos was denied"%string) w)) /\
  (forall e,
      permission = Rejects e \/
      (permission = Resolves true /\ launch = Rejects e) ->
      pickVideo permission launch w =
      (Normal None,
       with_error (Some "An error occurred while selecting video"%string) w)) /\
  (forall result,
      permission = Resolves true ->
      launch = Resolves result ->
      canceled result = true \/ assets result = None \/ assets result = Some [] ->
      pickVideo permission launch w = (Normal None, w)).
Proof.
  split; [|split; [|split]].
  - destruct permission as [[|]|e];
      [destruct launch as [[[|] [[|u rest]|]]|e]|..];
      run_picker; tauto.
  - intros launch'. split; reflexivity.
  - intros e [-> | [-> ->]]; reflexivity.
  - intros [c [[|u rest]|]] -> -> [Hc | [Ha | Ha]];
      simpl in Hc || simpl in Ha; subst; try discriminate;
      try reflexivity; destruct c; reflexivity.
Qed.

End PickerLaws.

(** ** The forms of the create and edit screens *)

Section FormLaws.
Context {num : Type} {N : JSNumber num}.
Variable env : Env num.
Implicit Types w : World num.



Lemma validateForm_valid_clears (s : VideoCreateScreen.State num) :
  fst (VideoCreateScreen.validateForm s) = true ->
  snd (VideoCreateScreen.validateForm s)
  = VideoCreateScreen.setFormErrors
      (VideoCreateScreen.mkFormErrors None None) s.
Proof.
  unfold VideoCreateScreen.validateForm.
  destruct (VideoCreateScreen.videoFormSchema_issues
              (VideoCreateScreen.name s) (VideoCreateScreen.description s));
    simpl; [reflexivity | discriminate].
Qed.

Lemma handleCropVideo_never_throws (s : VideoCreateScreen.State num) w :
  exists w1, VideoCreateScreen.handleCropVideo env s w = (Normal tt, w1).
Proof.
  unfold VideoCreateScreen.handleCropVideo.
  destruct (VideoCreateScreen.selectedVideoUri s) as [[|c rest]|];
    try (eexists; reflexivity).
  pose proof (proj1 (create_outcome env w (String c rest)
                (VideoCreateScreen.startTime s) (VideoCreateScreen.endTime s)
                (VideoCreateScreen.name s) (VideoCreateScreen.description s)))
    as Hev.
  unfold eval in Hev. unfold bind, VideoCreateScreen.navigate.
  destruct (useVideoOperations.cropVideo env (String c rest)
              (VideoCreateScreen.startTime s) (VideoCreateScreen.endTime s)
              (VideoCreateScreen.name s) (VideoCreateScreen.description s) w)
    as [r w1].
  simpl in Hev. subst r. eexists. reflexivity.
Qed.

(** X19.  [handleCropVideo] does nothing at all without a picked video
    ([null] or the empty string).  With one, it runs the create workflow on
    the form's values as they are and then navigates to "Home", whether the
    workflow ended in SUCCESS or in FAILED; it never throws. *)
Theorem handleCropVideo_navigates (s : VideoCreateScreen.State num) w :
  (VideoCreateScreen.selectedVideoUri s = None \/
   VideoCreateScreen.selectedVideoUri s = Some ""%string ->
   VideoCreateScreen.handleCropVideo env s w = (Normal tt, w)) /\
  (forall c rest,
      VideoCreateScreen.selectedVideoUri s = Some (String c rest) ->
      let created :=
        exec (useVideoOperations.cropVideo env (String c rest)
                (VideoCreateScreen.startTime s) (VideoCreateScreen.endTime s)
                (VideoCreateScreen.name s) (VideoCreateScreen.description s))
             w in
      VideoCreateScreen.handleCropVideo env s w
      = (Normal tt, with_navigated (navigated w ++ ["Home"%string]) created) /\
      (status (cropVideoMutation created) = Success \/
       status (cropVideoMutation created) = Failed)).
Proof.
  split.
  - intros [H | H]; unfold VideoCreateScreen.handleCropVideo; now rewrite H.
  - intros c rest Hsel created.
    destruct (create_outcome env w (String c rest)
                (VideoCreateScreen.startTime s) (VideoCreateScreen.endTime s)
                (VideoCreateScreen.name s) (VideoCreateScreen.description s))
      as (Hev & _ & _ & Hnav & Hcases).
    fold created in Hnav, Hcases.
    unfold VideoCreateScreen.handleCropVideo. rewrite Hsel.
    unfold bind, VideoCreateScreen.navigate.
    unfold eval in Hev. subst created. unfold exec in *.
    destruct (useVideoOperations.cropVideo env (String c rest)
                (VideoCreateScreen.startTime s) (VideoCreateScreen.endTime s)
                (VideoCreateScreen.name s) (VideoCreateScreen.description s) w)
      as [r w1].
    simpl in *. subst r. rewrite Hnav. split; [reflexivity|].
    destruct Hcases as [(u & t & Hm & _) | (e & Hm & _)]; rewrite Hm; simpl;
      [now left | now right].
Qed.

(** X20.  [handleSaveVideo] validates first: a form that fails validation
    leaves the world untouched and only gets its [formErrors] set; a form that
    passes has its errors cleared and goes through [handleCropVideo]. *)
Theorem handleSaveVideo_validates (s : VideoCreateScreen.State num) w :
  (fst (VideoCreateScreen.validateForm s) = false ->
   VideoCreateScreen.handleSaveVideo env s w
   = (Normal (snd (VideoCreateScreen.validateForm s)), w)) /\
  (fst (VideoCreateScreen.validateForm s) = true ->
   exec (VideoCreateScreen.handleSaveVideo env s) w
   = exec (VideoCreateScreen.handleCropVideo env s) w /\
   eval (VideoCreateScreen.handleSaveVideo env s) w
   = Normal (VideoCreateScreen.setFormErrors
               (VideoCreateScreen.mkFormErrors None None) s)).
Proof.
  pose proof (validateForm_valid_clears s) as Hclear.
  unfold VideoCreateScreen.handleSaveVideo.
  destruct (VideoCreateScreen.validateForm s) as [valid s'].
  simpl in *. split; intros ->; simpl.
  - reflexivity.
  - rewrite (Hclear eq_refl). unfold exec, eval, bind.
    destruct (handleCropVideo_never_throws s w) as [w1 Hw1].
    now rewrite Hw1.
Qed.

(** X21.  The edit screen's [handleUpdateVideo] validates first: a form
    that fails validation leaves the world untouched (the gateway is not
    called, the store is not changed).  With a valid form but no record under
    the screen's id, nothing happens either, silently.  With a valid form and
    the record present, it runs the edit workflow with the stored record's own
    locator as the video to trim, then navigates to "Home" whatever the
    result; the ids of the collection are as before. *)
Theorem handleUpdateVideo_validates (s : VideoEditScreen.State num) w :
  (fst (VideoEditScreen.validateForm s) = false ->
   VideoEditScreen.handleUpdateVideo env s w
   = (Normal (snd (VideoEditScreen.validateForm s)), w)) /\
  (fst (VideoEditScreen.validateForm s) = true ->
   (forall y, In y (videos w) -> id y <> VideoEditScreen.videoId s) ->
   VideoEditScreen.handleUpdateVideo env s w
   = (Normal (snd (VideoEditScreen.validateForm s)), w)) /\
  (fst (VideoEditScreen.validateForm s) = true ->
   forall videoData,
     eval (videoStore.getVideoById (VideoEditScreen.videoId s)) w
     = Normal (Some videoData) ->
     let edited :=
       exec (useVideoOperations.editVideo env (VideoEditScreen.videoId s)
               (uri videoData)
               (VideoEditScreen.startTime s) (VideoEditScreen.endTime s)
               (VideoEditScreen.name s) (VideoEditScreen.description s)) w in
     VideoEditScreen.handleUpdateVideo env s w
     = (Normal (snd (VideoEditScreen.validateForm s)),
        with_navigated (navigated w ++ ["Home"%string]) edited) /\
     map (@id num) (videos edited) = map (@id num) (videos w)).
Proof.
  unfold VideoEditScreen.handleUpdateVideo.
  destruct (VideoEditScreen.validateForm s) as [valid s'].
  cbv beta iota delta [fst snd].
  split; [|split]; intros ->; cbv beta iota delta [negb].
  - reflexivity.
  - intros Hno. unfold bind. rewrite run_getVideoById.
    now rewrite (find_miss _ _ Hno).
  - intros videoData Hget.
    set (edited :=
           exec (useVideoOperations.editVideo env (VideoEditScreen.videoId s)
                   (uri videoData)
                   (VideoEditScreen.startTime s) (VideoEditScreen.endTime s)
                   (VideoEditScreen.name s) (VideoEditScreen.description s)) w).
    apply getVideoById_find in Hget.
    unfold bind. rewrite run_getVideoById, Hget.
    destruct (edit_outcome env w (VideoEditScreen.videoId s) (uri videoData)
                (VideoEditScreen.startTime s) (VideoEditScreen.endTime s)
                (VideoEditScreen.name s) (VideoEditScreen.description s))
      as (Hev & _ & _ & Hnav & Hcases).
    fold edited in Hnav, Hcases.
    assert (Hids : map (@id num) (videos edited) = map (@id num) (videos w)).
    { destruct Hcases as [(x & u & t & _ & _ & Hv & _)
                         | [(_ & _ & Hv & _) | (x & e & _ & _ & Hv & _)]];
        rewrite Hv; try reflexivity.
      apply (replace_keeps_ids
               (mkVideoItem (id x) u (VideoEditScreen.name s)
                            (VideoEditScreen.description s)
                            (num_sub (VideoEditScreen.endTime s)
                                     (VideoEditScreen.startTime s))
                            (createdAt x) (Some t))). }
    split; [|exact Hids].
    unfold eval in Hev. subst edited. unfold exec in *.
    unfold VideoCreateScreen.navigate.
    destruct (useVideoOperations.editVideo env (VideoEditScreen.videoId s)
                (uri videoData)
                (VideoEditScreen.startTime s) (VideoEditScreen.endTime s)
                (VideoEditScreen.name s) (VideoEditScreen.description s) w)
      as [r w1].
    simpl in *. subst r. now rewrite Hnav.
Qed.

End FormLaws.

(** ** The trimmer's sliders *)

Section TrimmerLaws.
Import VideoTrimmer.
Implicit Types s : VideoTrimmer.State.

Ltac slider_cases :=
  cbv beta zeta delta [handleStartTimeChange handleEndTimeChange];
  rewrite ?Z.gtb_ltb;
  repeat match goal with
         | |- context [(?a <? ?b)%Z] => destruct (Z.ltb_spec a b)
         end;
  cbn [fst snd startTime endTime isPlaying setStartTime setEndTime].

(** X22.  Moving the start slider to [value] is refused, with the warning
    and no change of state, exactly when the end would be less than one second
    after the floored value.  Otherwise the start becomes the floored value and
    the end is pulled back to five seconds after it if it was further away, so
    the range is between 1 and 5 seconds.  The end slider does the same the
    other way round. *)
Theorem trim_range_after_change hasVideoRef value s :
  (let newStartTime := Qround.Qfloor value in
   let r := handleStartTimeChange hasVideoRef value s in
   ((endTime s - newStartTime < 1)%Z ->
    r = (s, [Alert "Warning" "Trim duration must be at least 1 second."])) /\
   ((1 <= endTime s - newStartTime)%Z ->
    startTime (fst r) = newStartTime /\
    endTime (fst r) = Z.min (endTime s) (newStartTime + 5) /\
    (1 <= endTime (fst r) - startTime (fst r) <= 5)%Z /\
    isPlaying (fst r) = isPlaying s /\
    snd r = if hasVideoRef && negb (isPlaying s)
            then [SetPositionAsync (newStartTime * 1000)] else [])) /\
  (let newEndTime := Qround.Qfloor value in
   let r := handleEndTimeChange hasVideoRef value s in
   ((newEndTime - startTime s < 1)%Z ->
    r = (s, [Alert "Warning" "Trim duration must be at least 1 second."])) /\
   ((1 <= newEndTime - startTime s)%Z ->
    endTime (fst r) = newEndTime /\
    startTime (fst r) = Z.max (startTime s) (newEndTime - 5) /\
    (1 <= endTime (fst r) - startTime (fst r) <= 5)%Z /\
    isPlaying (fst r) = isPlaying s)).
Proof.
  split; intros t r; subst t r; slider_cases;
    split; intros; try lia; try reflexivity;
    repeat split; try reflexivity; try lia.
Qed.

(** X23.  The handlers keep the range inside the video: when the start is
    not negative and the end is not after the video's length, a start slider
    value that is not negative, or an end slider value that is not after the
    video's length, leaves both so. *)
Theorem trim_range_stays_in_video hasVideoRef value s (videoDuration : QArith_base.Q) :
  (0 <= startTime s)%Z ->
  QArith_base.Qle (QArith_base.inject_Z (endTime s)) videoDuration ->
  (QArith_base.Qle (QArith_base.inject_Z 0) value ->
   let s' := fst (handleStartTimeChange hasVideoRef value s) in
   (0 <= startTime s')%Z /\
   QArith_base.Qle (QArith_base.inject_Z (endTime s')) videoDuration) /\
  (QArith_base.Qle value videoDuration ->
   let s' := fst (handleEndTimeChange hasVideoRef value s) in
   (0 <= startTime s')%Z /\
   QArith_base.Qle (QArith_base.inject_Z (endTime s')) videoDuration).
Proof.
  intros Hstart Hend. split.
  - intros Hvalue s'. subst s'.
    assert (Hfloor : (0 <= Qround.Qfloor value)%Z).
    { rewrite <- (Qround.Qfloor_Z 0). now apply Qround.Qfloor_resp_le. }
    slider_cases; split; try assumption.
    apply QArith_base.Qle_trans with (QArith_base.inject_Z (endTime s));
      [|assumption].
    rewrite <- QArith_base.Zle_Qle. lia.
  - intros Hvalue s'. subst s'.
    assert (Hfloor : QArith_base.Qle
                       (QArith_base.inject_Z (Qround.Qfloor value))
                       videoDuration).
    { apply QArith_base.Qle_trans with value;
        [apply Qround.Qfloor_le | assumption]. }
    slider_cases; split; try assumption; lia.
Qed.

End TrimmerLaws.

(** ** The time display *)

Section TimeDisplay.
Import VideoTrimmer.

Lemma formatTime_table :
  forallb (fun n => match read_mmss (formatTime (Z.of_nat n)) with
                    | Some t => (t =? Z.of_nat n)%Z
                    | None => false
                    end)
          (seq 0 (Z.to_nat 6000)) = true.
Proof. vm_compute. reflexivity. Qed.

(** X24.  For a whole number of seconds below 100 minutes, [formatTime]
    (and the identical [formatDuration]) shows exactly five characters,
    two digits of minutes, a colon and two digits of seconds below 60, and
    reading them back gives the seconds again; so different durations are
    shown differently. *)
Theorem formatTime_mmss t :
  (0 <= t < 6000)%Z ->
  read_mmss (formatTime t) = Some t /\
  String.length (formatTime t) = 5 /\
  forall t', (0 <= t' < 6000)%Z -> formatTime t' = formatTime t -> t' = t.
Proof.
  assert (Hread : forall u, (0 <= u < 6000)%Z -> read_mmss (formatTime u) = Some u).
  { intros u Hu.
    pose proof formatTime_table as Htab.
    rewrite forallb_forall in Htab.
    specialize (Htab (Z.to_nat u)).
    rewrite Z2Nat.id in Htab by lia.
    assert (Hin : In (Z.to_nat u) (seq 0 (Z.to_nat 6000)))
      by (apply in_seq; lia).
    specialize (Htab Hin).
    destruct (read_mmss (formatTime u)) as [v|]; [|discriminate].
    apply Z.eqb_eq in Htab. now subst. }
  intros Ht. split; [now apply Hread|]. split.
  - specialize (Hread t Ht). unfold read_mmss in Hread.
    destruct (formatTime t) as [|c1 [|c2 [|c3 [|c4 [|c5 [|c6 rest]]]]]];
      try discriminate; reflexivity.
  - intros t' Ht' Heq.
    pose proof (Hread t Ht) as H1. pose proof (Hread t' Ht') as H2.
    rewrite Heq in H2. rewrite H1 in H2. now injection H2.
Qed.

End TimeDisplay.

(** * Further worked instances *)

Section FurtherInstances.
Import Scenario.

Ltac other_ids :=
  let y := fresh "y" in
  let Hy := fresh "Hy" in
  intros y Hy; simpl in Hy;
  repeat (destruct Hy as [Hy | Hy]; [subst y; vm_compute; discriminate|]);
  contradiction.

Ltac distinct_ids :=
  vm_compute;
  repeat (constructor;
          [ let H := fresh "H" in
            intros H; simpl in H;
            repeat (destruct H as [H | H]; [discriminate|]); contradiction
          | ]);
  constructor.

(** Ids stay distinct through a [remove]; an [add] of a used id breaks it. *)
Lemma store_ids_examples :
  NoDup (map (@id Z) (videos (exec (videoStore.removeVideo "2")
                                   (world_of [v1; v2; v3])))) /\
  ~ NoDup (map (@id Z) (videos (exec (videoStore.addVideo v1')
                                     (world_of [v1; v2])))).
Proof.
  split.
  - apply (proj1 (proj2 (proj1 (proj2
             (store_ids_stay_unique (world_of [v1; v2; v3])))
             ltac:(distinct_ids)))).
  - apply (proj2 (proj2 (store_ids_stay_unique (world_of [v1; v2]))) v1' v1);
      [left; reflexivity | reflexivity].
Defined.

(** Adding the record "3" and removing it again. *)
Lemma add_then_remove_example :
  exec (videoStore.removeVideo (id v3))
       (exec (videoStore.addVideo v3) (world_of [v1; v2]))
  = world_of [v1; v2].
Proof.
  apply (proj2 (add_then_remove (world_of [v1; v2]) v3)). other_ids.
Defined.

(** Removing "2" does not disturb the lookup of "1". *)
Lemma lookup_of_other_id_example :
  eval (videoStore.getVideoById "1")
       (exec (videoStore.removeVideo "2") (world_of [v1; v2]))
  = eval (videoStore.getVideoById "1") (world_of [v1; v2]).
Proof.
  apply (proj2 (proj2 (lookup_of_other_id (world_of [v1; v2]) "1")) "2").
  discriminate.
Defined.

(** An update of a present id is found again; one of an absent id is not. *)
Lemma update_then_lookup_examples :
  eval (videoStore.getVideoById (id v1'))
       (exec (videoStore.updateVideo v1') (world_of [v2; v1]))
  = Normal (Some v1') /\
  eval (videoStore.getVideoById (id v3))
       (exec (videoStore.updateVideo v3) (world_of [v2; v1]))
  = Normal None.
Proof.
  split.
  - apply (proj1 (update_then_lookup (world_of [v2; v1]) v1')).
    exists v1. split; [right; left; reflexivity | reflexivity].
  - apply (proj2 (update_then_lookup (world_of [v2; v1]) v3)). other_ids.
Defined.

(** Two updates of the id "1": the second one wins. *)
Lemma update_twice_example :
  exec (videoStore.updateVideo v1')
       (exec (videoStore.updateVideo (video "1" 999%Z)) (world_of [v1; v2]))
  = exec (videoStore.updateVideo v1') (world_of [v1; v2]).
Proof.
  apply (proj1 (update_and_remove_repeat (world_of [v1; v2]))).
  reflexivity.
Defined.



(** Two thumbnails made in the same millisecond, for different videos, get
    the same path. *)
Lemma thumbnail_same_path_example :
  eval (videoService.generateThumbnail env_same_ms "file:///b.mp4")
       (world_of [v1])
  = eval (videoService.generateThumbnail env_same_ms "file:///a.mp4")
         initialWorld.
Proof.
  assert (H1 : videoService.generateThumbnail env_same_ms "file:///a.mp4"
                 initialWorld
               = (Normal "file:///data/thumbnails/1700000000000.jpg"%string,
                  exec (videoService.generateThumbnail env_same_ms
                          "file:///a.mp4") initialWorld))
    by (vm_compute; reflexivity).
  assert (H2 : videoService.generateThumbnail env_same_ms "file:///b.mp4"
                 (world_of [v1])
               = (Normal "file:///data/thumbnails/1700000000000.jpg"%string,
                  exec (videoService.generateThumbnail env_same_ms
                          "file:///b.mp4") (world_of [v1])))
    by (vm_compute; reflexivity).
  destruct (generateThumbnail_path_from_clock env_same_ms
              "file:///a.mp4" "file:///b.mp4" initialWorld (world_of [v1])
              _ _ H1) as [_ Hpath].
  destruct (Hpath _ eq_refl) as [_ Hsame].
  unfold eval. rewrite H1, H2. cbn [fst].
  apply (f_equal (@Normal string)).
  apply (Hsame _ _ H2). reflexivity.
Defined.


(** A create on a gateway whose trim fails ends with the loading flag off
    and the store as it was. *)
Lemma create_all_or_nothing_example :
  isLoading (exec (useVideoOperations.cropVideo env_trim_fails
                     "file:///in.mov" 0%Z 5%Z "Clip" "")
                  (world_of [v1])) = false.
Proof.
  exact (proj1 (proj2 (create_all_or_nothing env_trim_fails (world_of [v1])
                         "file:///in.mov" 0%Z 5%Z "Clip" ""))).
Defined.

(** Two creates while the clock stands still: the ids collide. *)
Lemma create_same_ms_example :
  ~ NoDup (map (@id Z)
               (videos (exec (useVideoOperations.cropVideo env_same_ms
                                "file:///b.mov" 0%Z 5%Z "B" "")
                             world_after_first_create))).
Proof.
  destruct (create_id_from_clock env_same_ms world_after_first_create
              "file:///b.mov" 0%Z 5%Z "B" "")
    as [v [_ [Hid [_ Hdup]]]];
    [vm_compute; reflexivity|].
  apply (Hdup (mkVideoItem "1700000000000"
                           "file:///data/videos/video_1700000000000.mp4"
                           "A" "" 5%Z 1700000000000%Z
                           (Some "file:///data/thumbnails/1700000000000.jpg"%string))).
  - vm_compute. left. reflexivity.
  - rewrite Hid. vm_compute. reflexivity.
Defined.

(** A successful create after a failed edit: the hook still shows the edit's
    error. *)
Lemma stale_error_example :
  useVideoOperations.hook_error
    (exec (useVideoOperations.cropVideo env_ok "file:///in.mov" 0%Z 5%Z
                                        "Clip" "")
          world_after_failed_edit)
  = Some "Video not found"%string.
Proof.
  pose proof (proj1 (proj2 (proj1
                (workflow_displayed_state env_ok world_after_failed_edit "9"
                   "file:///in.mov" 0%Z 5%Z "Clip" "")))
                ltac:(vm_compute; reflexivity)) as H.
  vm_compute in H. vm_compute. exact H.
Defined.

(** A create whose trim fails reads the clock once and stops. *)
Lemma failed_trim_example :
  ticks (exec (useVideoOperations.cropVideo env_trim_fails "file:///in.mov"
                                            0%Z 5%Z "Clip" "")
              initialWorld) = 1.
Proof.
  eapply (fun e w2 H =>
            proj2 (proj1 (failed_trim_skips_thumbnail env_trim_fails
                            initialWorld "file:///in.mov" 0%Z 5%Z "Clip" ""
                            e w2) H)).
  vm_compute. reflexivity.
Defined.

(** The picker resolved with two assets: the first one is returned. *)
Lemma pickVideo_example :
  eval (useVideoOperations.pickVideo (Resolves true) (Resolves picked_two))
       (@initialWorld Z)
  = Normal (Some "file:///a.mov"%string).
Proof.
  apply (proj2 (proj1 (proj2 (pickVideo_returns_first_asset
                                (Resolves true) (Resolves picked_two)
                                (@initialWorld Z)))
                      "file:///a.mov"%string)).
  split; [reflexivity|]. eexists. reflexivity.
Defined.

(** The permission request is rejected. *)
Lemma pickVideo_rejected_example :
  useVideoOperations.pickVideo (Rejects (Error "no picker"))
                               (Resolves picked_two) (@initialWorld Z)
  = (Normal None,
     with_error (Some "An error occurred while selecting video"%string)
                initialWorld).
Proof.
  apply (proj1 (proj2 (proj2 (pickVideo_effects
                                (Rejects (Error "no picker"))
                                (Resolves picked_two) (@initialWorld Z))))
               (Error "no picker")).
  left. reflexivity.
Defined.


(** No picked video: the handler does nothing. *)
Lemma handleCropVideo_example :
  VideoCreateScreen.handleCropVideo env_ok (create_form None "Clip")
                                    initialWorld
  = (Normal tt, initialWorld).
Proof.
  apply (proj1 (handleCropVideo_navigates env_ok (create_form None "Clip")
                                          initialWorld)).
  left. reflexivity.
Defined.

(** The validating handler on the empty title. *)
Lemma handleSaveVideo_example :
  exec (VideoCreateScreen.handleSaveVideo env_ok
          (create_form (Some "file:///in.mov"%string) ""))
       initialWorld
  = initialWorld.
Proof.
  unfold exec.
  rewrite (proj1 (handleSaveVideo_validates env_ok
                    (create_form (Some "file:///in.mov"%string) "")
                    initialWorld)
                 ltac:(vm_compute; reflexivity)).
  reflexivity.
Defined.

(** The edit screen on the empty title. *)
Lemma handleUpdateVideo_example :
  exec (VideoEditScreen.handleUpdateVideo env_ok (edit_form ""))
       (world_of [v1; v2])
  = world_of [v1; v2].
Proof.
  unfold exec.
  rewrite (proj1 (handleUpdateVideo_validates env_ok (edit_form "")
                                              (world_of [v1; v2]))
                 ltac:(vm_compute; reflexivity)).
  reflexivity.
Defined.

(** The start slider moved to 3.5 on the range 0..5. *)
Lemma trim_range_example :
  let r := VideoTrimmer.handleStartTimeChange true (QArith_base.Qmake 7 2)
                                              trimmer_0_5 in
  VideoTrimmer.startTime (fst r) = 3%Z /\
  VideoTrimmer.endTime (fst r) = 5%Z.
Proof.
  destruct (proj2 (proj1 (trim_range_after_change true (QArith_base.Qmake 7 2)
                                                  trimmer_0_5))
                  ltac:(vm_compute; discriminate))
    as [Hs [He _]].
  split; [exact Hs | exact He].
Defined.

(** The same move on a video of ten seconds stays inside the video. *)
Lemma trim_bounds_example :
  let s' := fst (VideoTrimmer.handleStartTimeChange
                   true (QArith_base.Qmake 7 2) trimmer_0_5) in
  (0 <= VideoTrimmer.startTime s')%Z /\
  QArith_base.Qle (QArith_base.inject_Z (VideoTrimmer.endTime s'))
                  (QArith_base.inject_Z 10).
Proof.
  apply (proj1 (trim_range_stays_in_video true (QArith_base.Qmake 7 2)
                  trimmer_0_5 (QArith_base.inject_Z 10)
                  ltac:(vm_compute; discriminate)
                  ltac:(vm_compute; discriminate))).
  vm_compute. discriminate.
Defined.

(** 125 seconds are shown as 02:05. *)
Lemma formatTime_example :
  VideoTrimmer.read_mmss (VideoTrimmer.formatTime 125) = Some 125%Z.
Proof.
  apply (proj1 (formatTime_mmss 125 ltac:(lia))).
Defined.

End FurtherInstances.
